(** * InvokeAI canvas: entity transformer, stage module and state facade

    A shallow embedding of
    [invokeai/frontend/web/src/features/controlLayers/konva/CanvasTransformer.ts]
    (the classes [CanvasTransformer], [CanvasStageModule] and [CanvasStateApi])
    together with the properties of its geometry and interaction logic.

    JavaScript numbers are modelled as exact rationals extended with the two
    infinities and NaN, so that division by zero and the arithmetic on its
    results behave as in the source.  In the module [JsNumber] every finite
    operation is exact and zero is the positive zero; the general properties
    are proved there, and they are stated so that they do not rest on
    identities that rounding breaks.  The module [Binary64] rounds each
    operation to the nearest binary64 number, as the source does; it is used
    to evaluate the code where the rounding decides. *)

From Stdlib Require Import ZArith QArith Qround Qabs Qminmax.
From Stdlib Require Import String List Bool Lia Lqa.
Import ListNotations.

Local Open Scope Q_scope.

(* ================================================================== *)
(** ** JavaScript numbers *)
(* ================================================================== *)

Module JsNumber.

Inductive number : Type :=
| Fin (q : Q)
| PInf
| NInf
| NaN.

(** Sign of a rational as a comparison with zero. *)
Definition Qsign (q : Q) : comparison := (Qnum q ?= 0)%Z.

(** Truncation toward zero, as used by the remainder operator. *)
Definition Qtrunc (q : Q) : Z :=
  if Qle_bool 0 q then Qfloor q else Qceiling q.

Definition is_nan (a : number) : bool :=
  match a with NaN => true | _ => false end.

(** Unary minus. *)
Definition neg (a : number) : number :=
  match a with
  | Fin q => Fin (- q)
  | PInf => NInf
  | NInf => PInf
  | NaN => NaN
  end.

(** [a + b] *)
Definition add (a b : number) : number :=
  match a, b with
  | NaN, _ | _, NaN => NaN
  | Fin p, Fin q => Fin (p + q)
  | PInf, NInf | NInf, PInf => NaN
  | PInf, _ | _, PInf => PInf
  | NInf, _ | _, NInf => NInf
  end.

(** [a - b] *)
Definition sub (a b : number) : number := add a (neg b).

(** The infinity carrying the sign [s]; NaN for a zero sign. *)
Definition inf_of_sign (s : comparison) : number :=
  match s with Gt => PInf | Lt => NInf | Eq => NaN end.

Definition sign_of (a : number) : comparison :=
  match a with
  | Fin q => Qsign q
  | PInf => Gt
  | NInf => Lt
  | NaN => Eq
  end.

Definition sign_mul (s t : comparison) : comparison :=
  match s, t with
  | Eq, _ | _, Eq => Eq
  | Gt, Gt | Lt, Lt => Gt
  | _, _ => Lt
  end.

(** [a * b] *)
Definition mul (a b : number) : number :=
  match a, b with
  | NaN, _ | _, NaN => NaN
  | Fin p, Fin q => Fin (p * q)
  | _, _ => inf_of_sign (sign_mul (sign_of a) (sign_of b))
  end.

(** [a / b].  A non-zero finite number divided by zero is the infinity of
    the dividend's sign, and [0 / 0] is NaN. *)
Definition div (a b : number) : number :=
  match a, b with
  | NaN, _ | _, NaN => NaN
  | Fin p, Fin q =>
      if Qeq_bool q 0 then inf_of_sign (Qsign p) else Fin (p / q)
  | Fin _, _ => Fin 0
  | _, Fin q =>
      match Qsign q with
      | Lt => neg a
      | _ => a
      end
  | _, _ => NaN
  end.

(** [a % b]: the remainder has the sign of the dividend. *)
Definition rem (a b : number) : number :=
  match a, b with
  | NaN, _ | _, NaN => NaN
  | PInf, _ | NInf, _ => NaN
  | Fin p, Fin q =>
      if Qeq_bool q 0 then NaN
      else Fin (p - q * inject_Z (Qtrunc (p / q)))
  | Fin p, _ => Fin p
  end.

(** Ordering; [None] when an operand is NaN. *)
Definition compare (a b : number) : option comparison :=
  match a, b with
  | NaN, _ | _, NaN => None
  | Fin p, Fin q => Some (p ?= q)
  | PInf, PInf | NInf, NInf => Some Eq
  | PInf, _ | _, NInf => Some Gt
  | NInf, _ | _, PInf => Some Lt
  end.

(** [a > b] *)
Definition gt (a b : number) : bool :=
  match compare a b with Some Gt => true | _ => false end.

(** [a < b] *)
Definition lt (a b : number) : bool :=
  match compare a b with Some Lt => true | _ => false end.

(** [a <= b] *)
Definition le (a b : number) : bool :=
  match compare a b with Some Lt | Some Eq => true | _ => false end.

(** [a >= b] *)
Definition ge (a b : number) : bool :=
  match compare a b with Some Gt | Some Eq => true | _ => false end.

(** [a === b] on numbers: NaN is not equal to itself. *)
Definition strict_eq (a b : number) : bool :=
  match compare a b with Some Eq => true | _ => false end.

(** [Math.min(a, b)] *)
Definition Math_min (a b : number) : number :=
  match compare a b with
  | None => NaN
  | Some Gt => b
  | Some _ => a
  end.

(** [Math.max(a, b)] *)
Definition Math_max (a b : number) : number :=
  match compare a b with
  | None => NaN
  | Some Lt => b
  | Some _ => a
  end.

(** [Math.abs(a)] *)
Definition Math_abs (a : number) : number :=
  match a with
  | Fin q => Fin (Qabs q)
  | PInf | NInf => PInf
  | NaN => NaN
  end.

(** [Math.floor(a)] *)
Definition Math_floor (a : number) : number :=
  match a with
  | Fin q => Fin (inject_Z (Qfloor q))
  | _ => a
  end.

(** [Math.round(a)]: the nearest integer, ties toward positive infinity. *)
Definition Math_round (a : number) : number :=
  match a with
  | Fin q => Fin (inject_Z (Qfloor (q + (1 # 2))))
  | _ => a
  end.

(** The sign of a rational as one of [1], [-1] and [0]. *)
Definition Qsgn (q : Q) : Q :=
  match Qsign q with
  | Gt => 1
  | Lt => - (1)
  | Eq => 0
  end.

(** [Math.sign(a)] *)
Definition Math_sign (a : number) : number :=
  match a with
  | Fin q => Fin (Qsgn q)
  | PInf => Fin 1
  | NInf => Fin (- (1))
  | NaN => NaN
  end.

(** [Math.PI] is the double nearest to pi, [884279719003555 * 2^-48]. *)
Definition Math_PI : number := Fin (884279719003555 # 281474976710656).

(** Two numbers denote the same value (finite values up to [Qeq]). *)
Definition same (a b : number) : Prop :=
  match a, b with
  | Fin p, Fin q => p == q
  | PInf, PInf | NInf, NInf | NaN, NaN => True
  | _, _ => False
  end.

End JsNumber.

Import JsNumber.

Declare Scope js_scope.
Delimit Scope js_scope with js.
Bind Scope js_scope with number.
Infix "+" := add : js_scope.
Infix "-" := sub : js_scope.
Infix "*" := mul : js_scope.
Infix "/" := div : js_scope.
Infix "mod" := rem (at level 40, no associativity) : js_scope.
Notation "- x" := (neg x) : js_scope.

(* ================================================================== *)
(** ** lodash *)
(* ================================================================== *)

Module Lodash.

(** [baseClamp(number, lower, upper)] with both bounds given. *)
Definition baseClamp (n lower upper : number) : number :=
  if strict_eq n n then
    let n1 := if le n upper then n else upper in
    if ge n1 lower then n1 else lower
  else n.

(** [clamp(number, lower, upper)]: a NaN bound is replaced by zero. *)
Definition clamp (n lower upper : number) : number :=
  let upper' := if strict_eq upper upper then upper else Fin 0 in
  let lower' := if strict_eq lower lower then lower else Fin 0 in
  baseClamp n lower' upper'.

End Lodash.

Local Open Scope string_scope.

(* ================================================================== *)
(** ** Geometry types ([features/controlLayers/store/types]) *)
(* ================================================================== *)

Record Coordinate : Type := mkCoordinate { x : number; y : number }.

Record Dimensions : Type := mkDimensions { dim_width : number; dim_height : number }.

Record Rect : Type := mkRect {
  rect_x : number;
  rect_y : number;
  rect_width : number;
  rect_height : number
}.

(** [{ id: string; position: Coordinate }] *)
Record PositionChangedArg : Type := mkPositionChangedArg {
  arg_id : string;
  position : Coordinate
}.

(* ================================================================== *)
(** ** CanvasStateApi: the facade over the redux store *)
(* ================================================================== *)

Section CanvasStateApi.

(** The payload type of the scale-changed intent and the root state with its
    reducer are declared outside this file; they are parameters here. *)
Variable ScaleChangedArg : Type.
Variable RootState : Type.

(** The action creators of [canvasV2Slice] used by the two intents. *)
Inductive Action : Type :=
| layerTranslated (arg : PositionChangedArg)
| rgTranslated (arg : PositionChangedArg)
| imTranslated (arg : PositionChangedArg)
| caTranslated (arg : PositionChangedArg)
| imScaled (arg : ScaleChangedArg)
| rgScaled (arg : ScaleChangedArg)
| caScaled (arg : ScaleChangedArg).

Variable reducer : RootState -> Action -> RootState.

(** The store: its current state, and the actions dispatched so far. *)
Record Store : Type := mkStore {
  getState : RootState;
  dispatched : list Action
}.

(** [store.dispatch(action)] *)
Definition dispatch (a : Action) (s : Store) : Store :=
  {| getState := reducer (getState s) a;
     dispatched := dispatched s ++ [a] |}.

(** [onPosChanged(arg, entityType)] *)
Definition onPosChanged (arg : PositionChangedArg) (entityType : string)
    (s : Store) : Store :=
  if entityType =? "layer" then dispatch (layerTranslated arg) s
  else if entityType =? "regional_guidance" then dispatch (rgTranslated arg) s
  else if entityType =? "inpaint_mask" then dispatch (imTranslated arg) s
  else if entityType =? "control_adapter" then dispatch (caTranslated arg) s
  else s.

(** [onScaleChanged(arg, entityType)] *)
Definition onScaleChanged (arg : ScaleChangedArg) (entityType : string)
    (s : Store) : Store :=
  if entityType =? "inpaint_mask" then dispatch (imScaled arg) s
  else if entityType =? "regional_guidance" then dispatch (rgScaled arg) s
  else if entityType =? "control_adapter" then dispatch (caScaled arg) s
  else s.

End CanvasStateApi.

Arguments layerTranslated {ScaleChangedArg} arg.
Arguments rgTranslated {ScaleChangedArg} arg.
Arguments imTranslated {ScaleChangedArg} arg.
Arguments caTranslated {ScaleChangedArg} arg.
Arguments imScaled {ScaleChangedArg} arg.
Arguments rgScaled {ScaleChangedArg} arg.
Arguments caScaled {ScaleChangedArg} arg.
Arguments mkStore {ScaleChangedArg RootState} _ _.
Arguments getState {ScaleChangedArg RootState} _.
Arguments dispatched {ScaleChangedArg RootState} _.
Arguments dispatch {ScaleChangedArg RootState} reducer a s.
Arguments onPosChanged {ScaleChangedArg RootState} reducer arg entityType s.
Arguments onScaleChanged {ScaleChangedArg RootState} reducer arg entityType s.

(* ================================================================== *)
(** ** CanvasTransformer *)
(* ================================================================== *)

Inductive InteractionMode : Type := all | drag | off.

(** The attributes of the Konva nodes that the transformer reads or writes. *)
Record KonvaTransformer : Type := mkKonvaTransformer {
  transformer_visible : bool;
  transformer_listening : bool;
  (** names of the attached nodes *)
  transformer_nodes : list string
}.

Record ProxyRect : Type := mkProxyRect {
  proxy_x : number;
  proxy_y : number;
  proxy_width : number;
  proxy_height : number;
  proxy_scaleX : number;
  proxy_scaleY : number;
  proxy_rotation : number;
  proxy_visible : bool;
  proxy_listening : bool
}.

Record BboxOutline : Type := mkBboxOutline {
  outline_visible : bool
}.

Record TransformerKonva : Type := mkTransformerKonva {
  transformer : KonvaTransformer;
  proxyRect : ProxyRect;
  bboxOutline : BboxOutline
}.

Record ObjectGroup : Type := mkObjectGroup {
  group_x : number;
  group_y : number;
  group_scaleX : number;
  group_scaleY : number;
  group_rotation : number
}.

(** The parent [CanvasLayer], as far as the transformer uses it. *)
Record CanvasLayer : Type := mkCanvasLayer {
  id : string;
  bbox : Rect;
  objectGroup : ObjectGroup;
  layer_listening : bool;
  (** [renderer.hasObjects()] *)
  hasObjects : bool
}.

Record CanvasTransformer : Type := mkCanvasTransformer {
  parent : CanvasLayer;
  isTransforming : bool;
  interactionMode : InteractionMode;
  isDragEnabled : bool;
  isTransformEnabled : bool;
  konva : TransformerKonva
}.

Definition PROXY_RECT_NAME : string := "entity_transformer:proxy_rect".

(** The bounding box handed to [boundBoxFunc]; rotation in radians. *)
Record Box : Type := mkBox {
  box_x : number;
  box_y : number;
  box_width : number;
  box_height : number;
  box_rotation : number
}.

(** *** Field updates *)

Definition with_parent (p : CanvasLayer) (t : CanvasTransformer) : CanvasTransformer :=
  mkCanvasTransformer p (isTransforming t) (interactionMode t)
    (isDragEnabled t) (isTransformEnabled t) (konva t).

Definition with_konva (k : TransformerKonva) (t : CanvasTransformer) : CanvasTransformer :=
  mkCanvasTransformer (parent t) (isTransforming t) (interactionMode t)
    (isDragEnabled t) (isTransformEnabled t) k.

Definition with_transformer (n : KonvaTransformer) (k : TransformerKonva) : TransformerKonva :=
  mkTransformerKonva n (proxyRect k) (bboxOutline k).

Definition with_proxyRect (r : ProxyRect) (k : TransformerKonva) : TransformerKonva :=
  mkTransformerKonva (transformer k) r (bboxOutline k).

Definition with_bboxOutline (o : BboxOutline) (k : TransformerKonva) : TransformerKonva :=
  mkTransformerKonva (transformer k) (proxyRect k) o.

(** [parent.konva.layer.listening(b)] *)
Definition layer_set_listening (b : bool) (t : CanvasTransformer) : CanvasTransformer :=
  let p := parent t in
  with_parent (mkCanvasLayer (id p) (bbox p) (objectGroup p) b (hasObjects p)) t.

(** [proxyRect.visible(v); proxyRect.listening(l)] *)
Definition proxy_set_flags (v l : bool) (r : ProxyRect) : ProxyRect :=
  mkProxyRect (proxy_x r) (proxy_y r) (proxy_width r) (proxy_height r)
    (proxy_scaleX r) (proxy_scaleY r) (proxy_rotation r) v l.

(** [setAttrs({ x, y, scaleX, scaleY })] on the proxy rectangle *)
Definition proxy_setAttrs (nx ny sx sy : number) (r : ProxyRect) : ProxyRect :=
  mkProxyRect nx ny (proxy_width r) (proxy_height r) sx sy (proxy_rotation r)
    (proxy_visible r) (proxy_listening r).

(** [setAttrs({ x, y, scaleX, scaleY })] on the object group *)
Definition group_setAttrs (nx ny sx sy : number) (g : ObjectGroup) : ObjectGroup :=
  mkObjectGroup nx ny sx sy (group_rotation g).

(** *** Enabling and disabling the widgets *)

Definition _enableTransform (t : CanvasTransformer) : CanvasTransformer :=
  let t1 := mkCanvasTransformer (parent t) (isTransforming t) (interactionMode t)
              (isDragEnabled t) true (konva t) in
  with_konva (with_transformer (mkKonvaTransformer true true [PROXY_RECT_NAME]) (konva t1)) t1.

Definition _disableTransform (t : CanvasTransformer) : CanvasTransformer :=
  let t1 := mkCanvasTransformer (parent t) (isTransforming t) (interactionMode t)
              (isDragEnabled t) false (konva t) in
  with_konva (with_transformer (mkKonvaTransformer false false []) (konva t1)) t1.

Definition _enableDrag (t : CanvasTransformer) : CanvasTransformer :=
  let t1 := mkCanvasTransformer (parent t) (isTransforming t) (interactionMode t)
              true (isTransformEnabled t) (konva t) in
  with_konva (with_proxyRect (proxy_set_flags true true (proxyRect (konva t1))) (konva t1)) t1.

Definition _disableDrag (t : CanvasTransformer) : CanvasTransformer :=
  let t1 := mkCanvasTransformer (parent t) (isTransforming t) (interactionMode t)
              false (isTransformEnabled t) (konva t) in
  with_konva (with_proxyRect (proxy_set_flags false false (proxyRect (konva t1))) (konva t1)) t1.

Definition _showBboxOutline (t : CanvasTransformer) : CanvasTransformer :=
  with_konva (with_bboxOutline (mkBboxOutline true) (konva t)) t.

Definition _hideBboxOutline (t : CanvasTransformer) : CanvasTransformer :=
  with_konva (with_bboxOutline (mkBboxOutline false) (konva t)) t.

(** [setInteractionMode(interactionMode)] *)
Definition setInteractionMode (m : InteractionMode) (t : CanvasTransformer)
    : CanvasTransformer :=
  let t0 := mkCanvasTransformer (parent t) (isTransforming t) m
              (isDragEnabled t) (isTransformEnabled t) (konva t) in
  match m with
  | drag => _showBboxOutline (_disableTransform (_enableDrag t0))
  | all => _hideBboxOutline (_enableTransform (_enableDrag t0))
  | off => _hideBboxOutline (_disableTransform (_disableDrag t0))
  end.

(** [syncInteractionState()].  [toolSelected] is [getToolState().selected] and
    [isSelected] is [getIsSelected(parent.id)]. *)
Definition syncInteractionState (toolSelected : string) (isSelected : bool)
    (t : CanvasTransformer) : CanvasTransformer :=
  if negb (hasObjects (parent t)) then
    setInteractionMode off (layer_set_listening false t)
  else if isSelected && negb (isTransforming t) && (toolSelected =? "move") then
    setInteractionMode drag (layer_set_listening true t)
  else if isSelected && isTransforming t then
    if negb (toolSelected =? "view") then
      setInteractionMode all (layer_set_listening true t)
    else
      setInteractionMode off (layer_set_listening false t)
  else
    setInteractionMode off (layer_set_listening false t).

(** [boundBoxFunc(oldBoundBox, newBoundBox)].  [activeAnchor] is
    [transformer.getActiveAnchor()] and [shiftKey] is [$shiftKey.get()]. *)
Definition boundBoxFunc (activeAnchor : option string) (shiftKey : bool)
    (oldBoundBox newBoundBox : Box) : Box :=
  let rotating :=
    match activeAnchor with
    | Some a => a =? "rotater"
    | None => false
    end in
  if negb rotating then newBoundBox
  else if shiftKey then
    if gt (Math_abs (box_rotation newBoundBox mod (Math_PI / Fin 4))%js) (Fin 0)
    then oldBoundBox
    else newBoundBox
  else newBoundBox.

(** The constants of the [transformend] handler. *)
Definition targetWidth (r : ProxyRect) : number :=
  Math_max (Math_abs (Math_round (proxy_width r * proxy_scaleX r)%js)) (Fin 1).

Definition targetHeight (r : ProxyRect) : number :=
  Math_max (Math_abs (Math_round (proxy_height r * proxy_scaleY r)%js)) (Fin 1).

Definition snappedScaleX (r : ProxyRect) : number :=
  ((targetWidth r / proxy_width r) * Math_sign (proxy_scaleX r))%js.

Definition snappedScaleY (r : ProxyRect) : number :=
  ((targetHeight r / proxy_height r) * Math_sign (proxy_scaleY r))%js.

(** The handler of the transformer's [transformend] event. *)
Definition on_transformend (t : CanvasTransformer) : CanvasTransformer :=
  let r := proxyRect (konva t) in
  let snappedX := Math_round (proxy_x r) in
  let snappedY := Math_round (proxy_y r) in
  let sx := snappedScaleX r in
  let sy := snappedScaleY r in
  let t1 := with_konva (with_proxyRect (proxy_setAttrs snappedX snappedY sx sy r) (konva t)) t in
  let p := parent t1 in
  with_parent
    (mkCanvasLayer (id p) (bbox p)
       (group_setAttrs snappedX snappedY sx sy (objectGroup p))
       (layer_listening p) (hasObjects p))
    t1.

(** The handler of the proxy rectangle's [dragend] event: the store after it. *)
Definition on_dragend {ScaleChangedArg RootState : Type}
    (reducer : RootState -> Action ScaleChangedArg -> RootState)
    (t : CanvasTransformer) (s : Store ScaleChangedArg RootState)
    : Store ScaleChangedArg RootState :=
  if isTransforming t then s
  else
    let r := proxyRect (konva t) in
    let position :=
      {| x := (proxy_x r - rect_x (bbox (parent t)))%js;
         y := (proxy_y r - rect_y (bbox (parent t)))%js |} in
    onPosChanged reducer {| arg_id := id (parent t); position := position |} "layer" s.

(* ================================================================== *)
(** ** CanvasStageModule *)
(* ================================================================== *)

Definition MIN_CANVAS_SCALE : number := Fin (1 # 10).
Definition MAX_CANVAS_SCALE : number := Fin 20.

Record KonvaStage : Type := mkKonvaStage {
  stage_x : number;
  stage_y : number;
  stage_width : number;
  stage_height : number;
  stage_scaleX : number;
  stage_scaleY : number
}.

(** The value of the [$stageAttrs] atom. *)
Record StageAttrs : Type := mkStageAttrs {
  attrs_x : number;
  attrs_y : number;
  attrs_width : number;
  attrs_height : number;
  attrs_scale : number
}.

Record CanvasStageModule : Type := mkCanvasStageModule {
  stage : KonvaStage;
  stageAttrs : StageAttrs
}.

(** [stage.setAttrs({ x, y, scaleX, scaleY })] *)
Definition stage_setAttrs (nx ny sx sy : number) (k : KonvaStage) : KonvaStage :=
  mkKonvaStage nx ny (stage_width k) (stage_height k) sx sy.

Definition getScale (m : CanvasStageModule) : number := stage_scaleX (stage m).

Definition getPosition (m : CanvasStageModule) : Coordinate :=
  {| x := stage_x (stage m); y := stage_y (stage m) |}.

Definition getSize (m : CanvasStageModule) : Dimensions :=
  {| dim_width := stage_width (stage m); dim_height := stage_height (stage m) |}.

(** [fitRect(rect)] *)
Definition fitRect (rect : Rect) (m : CanvasStageModule) : CanvasStageModule :=
  let width := dim_width (getSize m) in
  let height := dim_height (getSize m) in
  let padding := Fin 20 in
  let availableWidth := (width - padding * Fin 2)%js in
  let availableHeight := (height - padding * Fin 2)%js in
  let scale :=
    Math_min
      (Math_min (availableWidth / rect_width rect)%js
                (availableHeight / rect_height rect)%js)
      (Fin 1) in
  let nx :=
    (- rect_x rect * scale + padding
     + (availableWidth - rect_width rect * scale) / Fin 2)%js in
  let ny :=
    (- rect_y rect * scale + padding
     + (availableHeight - rect_height rect * scale) / Fin 2)%js in
  {| stage := stage_setAttrs nx ny scale scale (stage m);
     stageAttrs :=
       mkStageAttrs nx ny (attrs_width (stageAttrs m)) (attrs_height (stageAttrs m))
         scale |}.

(** [setScale(scale, center)] with the center given by the caller. *)
Definition setScale (scale : number) (center : Coordinate) (m : CanvasStageModule)
    : CanvasStageModule :=
  let newScale :=
    Lodash.clamp (Math_round (scale * Fin 100) / Fin 100)%js
      MIN_CANVAS_SCALE MAX_CANVAS_SCALE in
  let px := x (getPosition m) in
  let py := y (getPosition m) in
  let oldScale := getScale m in
  let deltaX := ((x center - px) / oldScale)%js in
  let deltaY := ((y center - py) / oldScale)%js in
  let newX := (x center - deltaX * newScale)%js in
  let newY := (y center - deltaY * newScale)%js in
  let k := stage_setAttrs newX newY newScale newScale (stage m) in
  {| stage := k;
     stageAttrs :=
       mkStageAttrs (Math_floor (stage_x k)) (Math_floor (stage_y k))
         (stage_width k) (stage_height k) (stage_scaleX k) |}.

(** A sequence of [setScale] calls, in order. *)
Definition setScale_calls (calls : list (number * Coordinate)) (m : CanvasStageModule)
    : CanvasStageModule :=
  fold_left (fun acc call => setScale (fst call) (snd call) acc) calls m.

(* ================================================================== *)
(** ** Binary64 arithmetic *)
(* ================================================================== *)

Module Binary64.

(** The integer nearest to [n / d] for [d > 0], ties to even. *)
Definition round_even (n d : Z) : Z :=
  let q := (n / d)%Z in
  match (2 * (n mod d) ?= d)%Z with
  | Lt => q
  | Gt => (q + 1)%Z
  | Eq => if Z.even q then q else (q + 1)%Z
  end.

(** [2 ^ k] for [k >= 0], and 1 otherwise. *)
Definition pow2 (k : Z) : Z := (2 ^ Z.max 0 k)%Z.

(** [floor (log2 (n / d))] for positive [n] and [d]. *)
Definition log2_ratio (n d : Z) : Z :=
  let k := (Z.log2 n - Z.log2 d)%Z in
  if (d * pow2 k <=? n * pow2 (- k))%Z then k else (k - 1)%Z.

(** The binary64 number nearest to a positive rational: a significand of 53
    bits, exponents from -1074, overflow to infinity. *)
Definition round_pos (q : Q) : number :=
  let n := Qnum q in
  let d := Zpos (Qden q) in
  let e := Z.max (log2_ratio n d - 52) (- 1074) in
  let m := round_even (n * pow2 (- e)) (d * pow2 e) in
  if (pow2 1024 * pow2 (- e) <=? m * pow2 e)%Z then PInf
  else Fin (Qred (inject_Z (m * pow2 e) / inject_Z (pow2 (- e)))).

(** Rounding to binary64, to nearest with ties to even. *)
Definition fl (a : number) : number :=
  match a with
  | Fin q =>
      match Qsign q with
      | Eq => Fin 0
      | Gt => round_pos q
      | Lt => neg (round_pos (- q))
      end
  | _ => a
  end.

(** The arithmetic operations of the source, correctly rounded. *)
Definition add (a b : number) : number := fl (JsNumber.add a b).
Definition sub (a b : number) : number := fl (JsNumber.sub a b).
Definition mul (a b : number) : number := fl (JsNumber.mul a b).
Definition div (a b : number) : number := fl (JsNumber.div a b).


(** [targetWidth] and [snappedScaleX] of the [transformend] handler. *)
Definition targetWidth (r : ProxyRect) : number :=
  Math_max (Math_abs (Math_round (mul (proxy_width r) (proxy_scaleX r)))) (Fin 1).

Definition snappedScaleX (r : ProxyRect) : number :=
  mul (div (targetWidth r) (proxy_width r)) (Math_sign (proxy_scaleX r)).

(** [fitRect(rect)] *)
Definition fitRect (rect : Rect) (m : CanvasStageModule) : CanvasStageModule :=
  let width := dim_width (getSize m) in
  let height := dim_height (getSize m) in
  let padding := Fin 20 in
  let availableWidth := sub width (mul padding (Fin 2)) in
  let availableHeight := sub height (mul padding (Fin 2)) in
  let scale :=
    Math_min
      (Math_min (div availableWidth (rect_width rect))
                (div availableHeight (rect_height rect)))
      (Fin 1) in
  let nx :=
    add (add (mul (neg (rect_x rect)) scale) padding)
      (div (sub availableWidth (mul (rect_width rect) scale)) (Fin 2)) in
  let ny :=
    add (add (mul (neg (rect_y rect)) scale) padding)
      (div (sub availableHeight (mul (rect_height rect) scale)) (Fin 2)) in
  {| stage := stage_setAttrs nx ny scale scale (stage m);
     stageAttrs :=
       mkStageAttrs nx ny (attrs_width (stageAttrs m)) (attrs_height (stageAttrs m))
         scale |}.

End Binary64.

(* ================================================================== *)
(** ** Statements used by the properties *)
(* ================================================================== *)

(** The interaction mode as the design describes it, from the four inputs. *)
Definition interaction_mode_of (hasContent isSelected : bool) (activeTool : string)
    (transforming : bool) : InteractionMode :=
  if negb hasContent then off
  else if isSelected && (activeTool =? "move") && negb transforming then drag
  else if isSelected && transforming && negb (activeTool =? "view") then all
  else off.

(** [committed] is a scale that, applied to the unscaled [size], reproduces the
    dimension [target] in magnitude and carries the sign of [scale]. *)
Definition reproduces (size scale target committed : number) : Prop :=
  match size, scale, target, committed with
  | Fin w, Fin s, Fin d, Fin c => Qabs (w * c) == d /\ w * c == Qsgn s * d
  | _, _, _, _ => False
  end.

(** The payload that [dragend] commits: the proxy rectangle's position minus
    the origin of the parent's last-known bounding box. *)
Definition position_delta (t : CanvasTransformer) : PositionChangedArg :=
  {| arg_id := id (parent t);
     position :=
       {| x := (proxy_x (proxyRect (konva t)) - rect_x (bbox (parent t)))%js;
          y := (proxy_y (proxyRect (konva t)) - rect_y (bbox (parent t)))%js |} |}.

(** The rotation grid of the snap test, [Math.PI / 4] as a rational. *)
Definition snap_angle : Q := (884279719003555 # 281474976710656) / 4.

(** A finite number within half a unit of [q] with an integral value. *)
Definition nearest_integer (q : Q) (a : number) : Prop :=
  match a with
  | Fin r => (exists z : Z, r == inject_Z z) /\ Qabs (r - q) <= 1 # 2
  | _ => False
  end.

(** A scale within [[MIN_CANVAS_SCALE, MAX_CANVAS_SCALE]]. *)
Definition scale_in_bounds (s : number) : Prop :=
  match s with
  | Fin q => 1 # 10 <= q /\ q <= 20
  | _ => False
  end.

(** A rational clamped to the bounds of the canvas scale. *)
Definition clamp_to_bounds (s : Q) : Q := Qmax (1 # 10) (Qmin s 20).

(** A finite number with at most two decimal places. *)
Definition two_decimals (s : number) : Prop :=
  match s with
  | Fin q => exists z : Z, q == inject_Z z / 100
  | _ => False
  end.

(** The margins that the viewport leaves around [rect] on the screen. *)
Definition margin_left (rect : Rect) (k : KonvaStage) : number :=
  (stage_x k + rect_x rect * stage_scaleX k)%js.

Definition margin_right (rect : Rect) (k : KonvaStage) : number :=
  (stage_width k - (stage_x k + (rect_x rect + rect_width rect) * stage_scaleX k))%js.

Definition margin_top (rect : Rect) (k : KonvaStage) : number :=
  (stage_y k + rect_y rect * stage_scaleY k)%js.

Definition margin_bottom (rect : Rect) (k : KonvaStage) : number :=
  (stage_height k - (stage_y k + (rect_y rect + rect_height rect) * stage_scaleY k))%js.

(** A transformer whose proxy rectangle has the given geometry. *)
Definition transformer_with (r : ProxyRect) : CanvasTransformer :=
  mkCanvasTransformer
    (mkCanvasLayer "layer_1" (mkRect (Fin 0) (Fin 0) (Fin 100) (Fin 50))
       (mkObjectGroup (Fin 0) (Fin 0) (Fin 1) (Fin 1) (Fin 0)) true true)
    true all true true
    (mkTransformerKonva (mkKonvaTransformer true true [PROXY_RECT_NAME]) r
       (mkBboxOutline false)).

(* ================================================================== *)
(** ** CanvasTransformer: anchors, dragging and the outline *)
(* ================================================================== *)

(** The geometry of the bounding-box outline: the attributes of
    [konva.bboxOutline] that [update], [syncScale] and the [dragmove] handler
    write. *)
Record OutlineAttrs : Type := mkOutlineAttrs {
  outline_x : number;
  outline_y : number;
  outline_width : number;
  outline_height : number;
  outline_strokeWidth : number
}.

(** [anchorDragBoundFunc(oldPos, newPos)].  [stageScale] is
    [manager.getStageScale()] and [stagePos] is [manager.getStagePosition()]. *)
Definition anchorDragBoundFunc (activeAnchor : option string) (stageScale : number)
    (stagePos : Coordinate) (oldPos newPos : Coordinate) : Coordinate :=
  let rotating :=
    match activeAnchor with
    | Some a => a =? "rotater"
    | None => false
    end in
  if rotating then newPos
  else
    let targetX := Math_round (x newPos / stageScale)%js in
    let targetY := Math_round (y newPos / stageScale)%js in
    let scaledOffsetX := (x stagePos mod stageScale)%js in
    let scaledOffsetY := (y stagePos mod stageScale)%js in
    let scaledTargetX := (targetX * stageScale + scaledOffsetX)%js in
    let scaledTargetY := (targetY * stageScale + scaledOffsetY)%js in
    {| x := scaledTargetX; y := scaledTargetY |}.

(** [objectGroup.setAttrs(...)] on the parent, keeping its other fields. *)
Definition with_objectGroup (g : ObjectGroup) (t : CanvasTransformer) : CanvasTransformer :=
  let p := parent t in
  with_parent (mkCanvasLayer (id p) (bbox p) g (layer_listening p) (hasObjects p)) t.

(** The handler of the transformer's [transform] event. *)
Definition on_transform (t : CanvasTransformer) : CanvasTransformer :=
  let r := proxyRect (konva t) in
  with_objectGroup
    (mkObjectGroup (proxy_x r) (proxy_y r) (proxy_scaleX r) (proxy_scaleY r)
       (proxy_rotation r))
    t.

(** [proxyRect.x(nx); proxyRect.y(ny)] *)
Definition proxy_set_position (nx ny : number) (r : ProxyRect) : ProxyRect :=
  mkProxyRect nx ny (proxy_width r) (proxy_height r) (proxy_scaleX r) (proxy_scaleY r)
    (proxy_rotation r) (proxy_visible r) (proxy_listening r).

(** The handler of the proxy rectangle's [dragmove] event.  [bboxPadding] is
    [manager.getScaledBboxPadding()]. *)
Definition on_dragmove (bboxPadding : number) (v : CanvasTransformer * OutlineAttrs)
    : CanvasTransformer * OutlineAttrs :=
  let t := fst v in
  let o := snd v in
  let r := proxyRect (konva t) in
  let r1 := proxy_set_position (Math_round (proxy_x r)) (proxy_y r) r in
  let r2 := proxy_set_position (proxy_x r1) (Math_round (proxy_y r1)) r1 in
  let o' :=
    mkOutlineAttrs (proxy_x r2 - bboxPadding)%js (proxy_y r2 - bboxPadding)%js
      (outline_width o) (outline_height o) (outline_strokeWidth o) in
  let t1 := with_konva (with_proxyRect r2 (konva t)) t in
  let g := objectGroup (parent t1) in
  (with_objectGroup
     (mkObjectGroup (proxy_x r2) (proxy_y r2) (group_scaleX g) (group_scaleY g)
        (group_rotation g))
     t1,
   o').

(** [update(position, bbox)].  [onePixel] is [manager.getScaledPixel()] and
    [bboxPadding] is [manager.getScaledBboxPadding()]. *)
Definition update (onePixel bboxPadding : number) (pos : Coordinate) (box : Rect)
    (v : CanvasTransformer * OutlineAttrs) : CanvasTransformer * OutlineAttrs :=
  let t := fst v in
  let r := proxyRect (konva t) in
  let o' :=
    mkOutlineAttrs
      (x pos + rect_x box - bboxPadding)%js
      (y pos + rect_y box - bboxPadding)%js
      (rect_width box + bboxPadding * Fin 2)%js
      (rect_height box + bboxPadding * Fin 2)%js
      onePixel in
  let r' :=
    mkProxyRect (x pos + rect_x box)%js (y pos + rect_y box)%js
      (rect_width box) (rect_height box)
      (proxy_scaleX r) (proxy_scaleY r) (proxy_rotation r)
      (proxy_visible r) (proxy_listening r) in
  (with_konva (with_proxyRect r' (konva t)) t, o').

(** [syncScale()]: only the outline changes. *)
Definition syncScale (onePixel bboxPadding : number) (v : CanvasTransformer * OutlineAttrs)
    : CanvasTransformer * OutlineAttrs :=
  let t := fst v in
  let r := proxyRect (konva t) in
  (t,
   mkOutlineAttrs
     (proxy_x r - bboxPadding)%js
     (proxy_y r - bboxPadding)%js
     (proxy_width r * proxy_scaleX r + bboxPadding * Fin 2)%js
     (proxy_height r * proxy_scaleY r + bboxPadding * Fin 2)%js
     onePixel).

(** [this.isTransforming = b] *)
Definition set_isTransforming (b : bool) (t : CanvasTransformer) : CanvasTransformer :=
  mkCanvasTransformer (parent t) b (interactionMode t) (isDragEnabled t)
    (isTransformEnabled t) (konva t).

(** [startTransform()].  [toolSelected] is [getToolState().selected]. *)
Definition startTransform (toolSelected : string) (t : CanvasTransformer)
    : CanvasTransformer :=
  let t1 := set_isTransforming true t in
  let shouldListen := negb (toolSelected =? "view") in
  setInteractionMode all (layer_set_listening shouldListen t1).

(** [stopTransform()].  The three calls on the parent ([resetScale],
    [updatePosition], [updateBbox]) belong to [CanvasLayer], which is declared
    elsewhere; their effect on the transformer is the parameter
    [parentReset]. *)
Definition stopTransform (parentReset : CanvasTransformer -> CanvasTransformer)
    (toolSelected : string) (isSelected : bool) (t : CanvasTransformer)
    : CanvasTransformer :=
  let t1 := set_isTransforming false t in
  let t2 := setInteractionMode off t1 in
  let t3 := parentReset t2 in
  syncInteractionState toolSelected isSelected t3.

(* ================================================================== *)
(** ** CanvasStageModule: the container, the center and the visible rect *)
(* ================================================================== *)

(** [fitStageToContainer()].  [offsetWidth] and [offsetHeight] are those of
    the stage's container element. *)
Definition fitStageToContainer (offsetWidth offsetHeight : number)
    (m : CanvasStageModule) : CanvasStageModule :=
  let k := stage m in
  let k' := mkKonvaStage (stage_x k) (stage_y k) offsetWidth offsetHeight
              (stage_scaleX k) (stage_scaleY k) in
  {| stage := k';
     stageAttrs :=
       mkStageAttrs (stage_x k') (stage_y k') (stage_width k') (stage_height k')
         (stage_scaleX k') |}.

(** [getCenter()] with [absolute = false]: the center in stage coordinates. *)
Definition getCenter (m : CanvasStageModule) : Coordinate :=
  let scale := getScale m in
  let px := x (getPosition m) in
  let py := y (getPosition m) in
  let width := dim_width (getSize m) in
  let height := dim_height (getSize m) in
  {| x := ((width / Fin 2 - px) / scale)%js;
     y := ((height / Fin 2 - py) / scale)%js |}.

(** [getScaledPixels(pixels)] *)
Definition getScaledPixels (pixels : number) (m : CanvasStageModule) : number :=
  (pixels / getScale m)%js.

(** An entity adapter as [getVisibleRect] reads it: [state.isEnabled] and
    [transformer.getRelativeRect()]. *)
Record Adapter : Type := mkAdapter {
  adapter_isEnabled : bool;
  adapter_relativeRect : Rect
}.

(** The parts of the manager that [getVisibleRect] reads: the four adapter
    maps, in iteration order, and [stateApi.getBbox().rect]. *)
Record ManagerView : Type := mkManagerView {
  inpaintMaskAdapters : list Adapter;
  rasterLayerAdapters : list Adapter;
  controlLayerAdapters : list Adapter;
  regionalGuidanceAdapters : list Adapter;
  bbox_rect : Rect
}.

(** The rects pushed by one of the four loops. *)
Definition enabled_rects (adapters : list Adapter) : list Rect :=
  map adapter_relativeRect (filter adapter_isEnabled adapters).

Section VisibleRect.

(** [getRectUnion] of [konva/util] is declared elsewhere. *)
Variable getRectUnion : list Rect -> Rect.

(** [getVisibleRect()] *)
Definition getVisibleRect (mgr : ManagerView) : Rect :=
  let rects :=
    (enabled_rects (inpaintMaskAdapters mgr)
     ++ enabled_rects (rasterLayerAdapters mgr)
     ++ enabled_rects (controlLayerAdapters mgr)
     ++ enabled_rects (regionalGuidanceAdapters mgr))%list in
  let rectUnion := getRectUnion rects in
  if strict_eq (rect_width rectUnion) (Fin 0)
     || strict_eq (rect_height rectUnion) (Fin 0)
  then bbox_rect mgr
  else rectUnion.

(** [fitBboxToStage()] *)
Definition fitBboxToStage (mgr : ManagerView) (m : CanvasStageModule) : CanvasStageModule :=
  fitRect (bbox_rect mgr) m.

(** [fitLayersToStage()] *)
Definition fitLayersToStage (mgr : ManagerView) (m : CanvasStageModule)
    : CanvasStageModule :=
  let rect := getVisibleRect mgr in
  fitRect rect m.

End VisibleRect.

(* ================================================================== *)
(** ** IDs of konva layers and objects *)
(* ================================================================== *)

Definition getRGId (entityId : string) : string := "region_" ++ entityId.
Definition getLayerId (entityId : string) : string := "layer_" ++ entityId.
Definition getBrushLineId (entityId lineId : string) : string :=
  entityId ++ ".brush_line_" ++ lineId.
Definition getEraserLineId (entityId lineId : string) : string :=
  entityId ++ ".eraser_line_" ++ lineId.
Definition getRectShapeId (entityId rectId : string) : string :=
  entityId ++ ".rect_" ++ rectId.
Definition getImageObjectId (entityId imageId : string) : string :=
  entityId ++ ".image_" ++ imageId.
Definition getObjectGroupId (entityId groupId : string) : string :=
  entityId ++ ".objectGroup_" ++ groupId.
Definition getLayerBboxId (entityId : string) : string := entityId ++ ".bbox".
Definition getCAId (entityId : string) : string := "control_adapter_" ++ entityId.
Definition getIPAId (entityId : string) : string := "ip_adapter_" ++ entityId.

(* ================================================================== *)
(** ** CanvasStateApi: reading the selected entity *)
(* ================================================================== *)

Record RgbColor : Type := mkRgbColor {
  rgb_r : number;
  rgb_g : number;
  rgb_b : number
}.

Record RgbaColor : Type := mkRgbaColor {
  rgba_r : number;
  rgba_g : number;
  rgba_b : number;
  rgba_a : number
}.

(** An entity of the canvas state, with the fields that the facade reads. *)
Record CanvasEntity : Type := mkCanvasEntity {
  entity_id : string;
  entity_type : string;
  entity_fill : RgbColor
}.

Record EntityIdentifier : Type := mkEntityIdentifier {
  identifier_id : string;
  identifier_type : string
}.

(** The slice [canvasV2] of the store's state, with the fields that the
    facade reads. *)
Record CanvasV2State : Type := mkCanvasV2State {
  selectedEntityIdentifier : option EntityIdentifier;
  layers_entities : list CanvasEntity;
  controlAdapters_entities : list CanvasEntity;
  ipAdapters_entities : list CanvasEntity;
  regions_entities : list CanvasEntity;
  inpaintMask : CanvasEntity;
  tool_fill : RgbaColor;
  tool_selected : string;
  settings_maskOpacity : number
}.

(** [entities.find((i) => i.id === id) ?? null] *)
Definition find_entity (entityId : string) (entities : list CanvasEntity)
    : option CanvasEntity :=
  find (fun i => entity_id i =? entityId) entities.

(** [getSelectedEntity()] *)
Definition getSelectedEntity (state : CanvasV2State) : option CanvasEntity :=
  match selectedEntityIdentifier state with
  | None => None
  | Some identifier =>
      if identifier_type identifier =? "layer" then
        find_entity (identifier_id identifier) (layers_entities state)
      else if identifier_type identifier =? "control_adapter" then
        find_entity (identifier_id identifier) (controlAdapters_entities state)
      else if identifier_type identifier =? "ip_adapter" then
        find_entity (identifier_id identifier) (ipAdapters_entities state)
      else if identifier_type identifier =? "regional_guidance" then
        find_entity (identifier_id identifier) (regions_entities state)
      else if identifier_type identifier =? "inpaint_mask" then
        Some (inpaintMask state)
      else None
  end.

(** [getIsSelected(id)]: [getSelectedEntity()?.id === id] *)
Definition getIsSelected (state : CanvasV2State) (entityId : string) : bool :=
  match getSelectedEntity state with
  | Some e => entity_id e =? entityId
  | None => false
  end.

(** [{ ...fill, a }] *)
Definition with_alpha (fill : RgbColor) (alpha : number) : RgbaColor :=
  mkRgbaColor (rgb_r fill) (rgb_g fill) (rgb_b fill) alpha.

(** [getCurrentFill()] *)
Definition getCurrentFill (state : CanvasV2State) : RgbaColor :=
  let currentFill := tool_fill state in
  match getSelectedEntity state with
  | Some selectedEntity =>
      if entity_type selectedEntity =? "regional_guidance" then
        with_alpha (entity_fill selectedEntity) (settings_maskOpacity state)
      else if entity_type selectedEntity =? "inpaint_mask" then
        with_alpha (entity_fill (inpaintMask state)) (settings_maskOpacity state)
      else currentFill
  | None => tool_fill state
  end.

(* ================================================================== *)
(** ** Statements used by the further properties *)
(* ================================================================== *)

(** A finite number with an integral value. *)
Definition integral (a : number) : Prop :=
  match a with
  | Fin q => exists z : Z, q == inject_Z z
  | _ => False
  end.

(** The object group carries the geometry of the proxy rectangle. *)
Definition mirrors (t : CanvasTransformer) : Prop :=
  let r := proxyRect (konva t) in
  let g := objectGroup (parent t) in
  group_x g = proxy_x r /\ group_y g = proxy_y r
  /\ group_scaleX g = proxy_scaleX r /\ group_scaleY g = proxy_scaleY r
  /\ group_rotation g = proxy_rotation r.

(** The pointer-driven events of the transformer that change geometry. *)
Inductive GeometryEvent : Type :=
| Transform
| TransformEnd
| DragMove (bboxPadding : number).

Definition handle_event (v : CanvasTransformer * OutlineAttrs) (e : GeometryEvent)
    : CanvasTransformer * OutlineAttrs :=
  match e with
  | Transform => (on_transform (fst v), snd v)
  | TransformEnd => (on_transformend (fst v), snd v)
  | DragMove bboxPadding => on_dragmove bboxPadding v
  end.

Definition handle_events (events : list GeometryEvent)
    (v : CanvasTransformer * OutlineAttrs) : CanvasTransformer * OutlineAttrs :=
  fold_left handle_event events v.

(** The published attributes are those of the stage. *)
Definition attrs_mirror_stage (m : CanvasStageModule) : Prop :=
  attrs_x (stageAttrs m) = stage_x (stage m)
  /\ attrs_y (stageAttrs m) = stage_y (stage m)
  /\ attrs_width (stageAttrs m) = stage_width (stage m)
  /\ attrs_height (stageAttrs m) = stage_height (stage m)
  /\ attrs_scale (stageAttrs m) = stage_scaleX (stage m).

(** Two outlines with the same geometry. *)
Definition same_outline (o1 o2 : OutlineAttrs) : Prop :=
  same (outline_x o1) (outline_x o2) /\ same (outline_y o1) (outline_y o2)
  /\ same (outline_width o1) (outline_width o2)
  /\ same (outline_height o1) (outline_height o2)
  /\ same (outline_strokeWidth o1) (outline_strokeWidth o2).

(** A state with one layer, one region and the inpaint mask, and a selection
    given by the caller. *)
Definition sample_state (selection : option EntityIdentifier) : CanvasV2State :=
  mkCanvasV2State selection
    [mkCanvasEntity "L1" "layer" (mkRgbColor (Fin 0) (Fin 0) (Fin 0))]
    [] []
    [mkCanvasEntity "R1" "regional_guidance" (mkRgbColor (Fin 255) (Fin 0) (Fin 0))]
    (mkCanvasEntity "inpaint_mask" "inpaint_mask" (mkRgbColor (Fin 0) (Fin 0) (Fin 255)))
    (mkRgbaColor (Fin 10) (Fin 20) (Fin 30) (Fin 1))
    "move"
    (Fin (1 # 2)).

(** A transformer of a layer with content and the given id. *)
Definition sample_transformer (layerId : string) : CanvasTransformer :=
  mkCanvasTransformer
    (mkCanvasLayer layerId (mkRect (Fin 0) (Fin 0) (Fin 100) (Fin 50))
       (mkObjectGroup (Fin 0) (Fin 0) (Fin 1) (Fin 1) (Fin 0)) false true)
    false off false false
    (mkTransformerKonva (mkKonvaTransformer false false [])
       (mkProxyRect (Fin 0) (Fin 0) (Fin 100) (Fin 50) (Fin 1) (Fin 1) (Fin 0)
          false false)
       (mkBboxOutline false)).

(* ================================================================== *)
(** ** Facts about JavaScript numbers *)
(* ================================================================== *)

Local Open Scope Q_scope.

Section NumberFacts.

Lemma Qsign_Gt (q : Q) : Qsign q = Gt <-> 0 < q.
Proof.
  unfold Qsign, Qlt. simpl. rewrite Z.mul_1_r.
  rewrite Z.compare_gt_iff. reflexivity.
Qed.

Lemma Qsign_Lt (q : Q) : Qsign q = Lt <-> q < 0.
Proof.
  unfold Qsign, Qlt. simpl. rewrite Z.mul_1_r.
  rewrite Z.compare_lt_iff. reflexivity.
Qed.

Lemma Qsign_Eq (q : Q) : Qsign q = Eq <-> q == 0.
Proof.
  unfold Qsign, Qeq. simpl. rewrite Z.mul_1_r.
  rewrite Z.compare_eq_iff. reflexivity.
Qed.

Lemma Qsgn_pos (q : Q) : 0 < q -> Qsgn q = 1.
Proof. intros H. unfold Qsgn. apply Qsign_Gt in H. now rewrite H. Qed.

Lemma Qsgn_neg (q : Q) : q < 0 -> Qsgn q = - (1).
Proof. intros H. unfold Qsgn. apply Qsign_Lt in H. now rewrite H. Qed.

Lemma Qsgn_zero (q : Q) : q == 0 -> Qsgn q = 0.
Proof. intros H. unfold Qsgn. apply Qsign_Eq in H. now rewrite H. Qed.

Lemma Qsgn_cases (q : Q) :
  (0 < q /\ Qsgn q = 1) \/ (q < 0 /\ Qsgn q = - (1)) \/ (q == 0 /\ Qsgn q = 0).
Proof.
  destruct (Q_dec q 0) as [[H | H] | H].
  - right; left; split; [assumption | now apply Qsgn_neg].
  - left; split; [assumption | now apply Qsgn_pos].
  - right; right; split; [assumption | now apply Qsgn_zero].
Qed.

Lemma div_fin (p q : Q) : ~ q == 0 -> div (Fin p) (Fin q) = Fin (p / q).
Proof.
  intros H. unfold div.
  destruct (Qeq_bool q 0) eqn:E; [ | reflexivity].
  apply Qeq_bool_iff in E. contradiction.
Qed.

Lemma div_zero_pos (p : Q) : 0 < p -> div (Fin p) (Fin 0) = PInf.
Proof. intros H. unfold div. simpl. apply Qsign_Gt in H. now rewrite H. Qed.

Lemma div_zero_neg (p : Q) : p < 0 -> div (Fin p) (Fin 0) = NInf.
Proof. intros H. unfold div. simpl. apply Qsign_Lt in H. now rewrite H. Qed.

Lemma Math_min_fin (p q : Q) :
  exists r, Math_min (Fin p) (Fin q) = Fin r /\ r == Qmin p q.
Proof.
  unfold Math_min, compare.
  destruct (p ?= q) eqn:E.
  - exists p. split; [reflexivity | ].
    apply Qeq_alt in E. symmetry. apply Q.min_l. rewrite E. apply Qle_refl.
  - exists p. split; [reflexivity | ].
    apply Qlt_alt in E. symmetry. apply Q.min_l. now apply Qlt_le_weak.
  - exists q. split; [reflexivity | ].
    apply Qgt_alt in E. symmetry. apply Q.min_r. now apply Qlt_le_weak.
Qed.

Lemma Math_max_fin (p q : Q) :
  exists r, Math_max (Fin p) (Fin q) = Fin r /\ r == Qmax p q.
Proof.
  unfold Math_max, compare.
  destruct (p ?= q) eqn:E.
  - exists p. split; [reflexivity | ].
    apply Qeq_alt in E. symmetry. apply Q.max_l. rewrite E. apply Qle_refl.
  - exists q. split; [reflexivity | ].
    apply Qlt_alt in E. symmetry. apply Q.max_r. now apply Qlt_le_weak.
  - exists p. split; [reflexivity | ].
    apply Qgt_alt in E. symmetry. apply Q.max_l. now apply Qlt_le_weak.
Qed.

Lemma Qabs_zero_iff (r : Q) : Qabs r == 0 <-> r == 0.
Proof.
  destruct (Qlt_le_dec r 0) as [H | H].
  - rewrite (Qabs_neg r) by now apply Qlt_le_weak. split; intros E; lra.
  - rewrite (Qabs_pos r) by assumption. reflexivity.
Qed.

Lemma gt_abs_zero (r : Q) : gt (Math_abs (Fin r)) (Fin 0) = true <-> ~ r == 0.
Proof.
  unfold gt, Math_abs, compare.
  destruct (Qabs r ?= 0) eqn:E.
  - apply Qeq_alt in E.
    split; [discriminate | ].
    intros H. exfalso. apply H. now apply (proj1 (Qabs_zero_iff r)).
  - apply Qlt_alt in E. pose proof (Qabs_nonneg r). lra.
  - apply Qgt_alt in E. split; [ | reflexivity].
    intros _ H. apply Qabs_zero_iff in H. lra.
Qed.

End NumberFacts.

(* ================================================================== *)
(** ** The state facade *)
(* ================================================================== *)

Local Open Scope list_scope.

Section FacadeProperties.

Context {ScaleChangedArg RootState : Type}.
Variable reducer : RootState -> Action ScaleChangedArg -> RootState.

Lemma dispatch_state (a : Action ScaleChangedArg) (s : Store ScaleChangedArg RootState) :
  getState (dispatch reducer a s) = reducer (getState s) a.
Proof. reflexivity. Qed.

Lemma dispatch_log (a : Action ScaleChangedArg) (s : Store ScaleChangedArg RootState) :
  dispatched (dispatch reducer a s) = dispatched s ++ [a].
Proof. reflexivity. Qed.

(** The position-changed intent reaches one mutation per supported type. *)
Lemma onPosChanged_layer (arg : PositionChangedArg) (s : Store ScaleChangedArg RootState) :
  onPosChanged reducer arg "layer" s = dispatch reducer (layerTranslated arg) s.
Proof. reflexivity. Qed.

(** An entity type outside the three scalable ones leaves the store alone. *)
Lemma onScaleChanged_unsupported (arg : ScaleChangedArg) (entityType : string)
    (s : Store ScaleChangedArg RootState) :
  entityType <> "inpaint_mask" ->
  entityType <> "regional_guidance" ->
  entityType <> "control_adapter" ->
  onScaleChanged reducer arg entityType s = s.
Proof.
  intros H1 H2 H3. unfold onScaleChanged.
  apply String.eqb_neq in H1, H2, H3.
  now rewrite H1, H2, H3.
Qed.

(** C9: for every scale-changed argument, [onScaleChanged] with entity type
    ['layer'] dispatches nothing and leaves the store (its state and its log
    of dispatched actions) unchanged, while ['inpaint_mask'],
    ['regional_guidance'] and ['control_adapter'] each dispatch exactly their
    own scaled mutation ([imScaled], [rgScaled], [caScaled]). *)
Theorem onScaleChanged_by_entity_type (arg : ScaleChangedArg)
    (s : Store ScaleChangedArg RootState) :
  onScaleChanged reducer arg "layer" s = s
  /\ (dispatched (onScaleChanged reducer arg "inpaint_mask" s)
        = dispatched s ++ [imScaled arg]
      /\ getState (onScaleChanged reducer arg "inpaint_mask" s)
        = reducer (getState s) (imScaled arg))
  /\ (dispatched (onScaleChanged reducer arg "regional_guidance" s)
        = dispatched s ++ [rgScaled arg]
      /\ getState (onScaleChanged reducer arg "regional_guidance" s)
        = reducer (getState s) (rgScaled arg))
  /\ (dispatched (onScaleChanged reducer arg "control_adapter" s)
        = dispatched s ++ [caScaled arg]
      /\ getState (onScaleChanged reducer arg "control_adapter" s)
        = reducer (getState s) (caScaled arg)).
Proof.
  split.
  - apply onScaleChanged_unsupported; discriminate.
  - repeat split.
Qed.

(** C8: on a drag release, if a transform is in progress nothing is
    dispatched and the store is unchanged; otherwise exactly one
    position-changed action is dispatched, and its payload is the proxy
    rectangle's position minus the origin of the parent's bounding box. *)
Theorem dragend_commits_position (t : CanvasTransformer)
    (s : Store ScaleChangedArg RootState) :
  (isTransforming t = true -> on_dragend reducer t s = s)
  /\ (isTransforming t = false ->
      dispatched (on_dragend reducer t s) = dispatched s ++ [layerTranslated (position_delta t)]
      /\ getState (on_dragend reducer t s)
         = reducer (getState s) (layerTranslated (position_delta t))).
Proof.
  unfold on_dragend. split; intros H; rewrite H.
  - reflexivity.
  - rewrite onPosChanged_layer. split; reflexivity.
Qed.

End FacadeProperties.

(** An instance of the facade: the state is the number of mutations applied. *)
Lemma dragend_commits_position_witness :
  let t := mkCanvasTransformer
             (mkCanvasLayer "layer_1" (mkRect (Fin 3) (Fin 4) (Fin 100) (Fin 50))
                (mkObjectGroup (Fin 0) (Fin 0) (Fin 1) (Fin 1) (Fin 0)) true true)
             false drag true false
             (mkTransformerKonva (mkKonvaTransformer false false [])
                (mkProxyRect (Fin 20) (Fin 10) (Fin 100) (Fin 50) (Fin 1) (Fin 1) (Fin 0)
                   true true)
                (mkBboxOutline true)) in
  let s : Store unit nat := mkStore 0%nat [] in
  isTransforming t = false
  /\ dispatched (on_dragend (fun n _ => S n) t s)
     = [layerTranslated
          {| arg_id := "layer_1";
             position := {| x := (Fin 20 - Fin 3)%js; y := (Fin 10 - Fin 4)%js |} |}]
  /\ getState (on_dragend (fun n _ => S n) t s) = 1%nat.
Proof.
  intros t s. split; [reflexivity | ].
  exact (proj2 (dragend_commits_position (fun n _ => S n) t s) eq_refl).
Defined.

(* ================================================================== *)
(** ** The interaction modes of the transformer *)
(* ================================================================== *)

Section InteractionProperties.

Lemma setInteractionMode_mode (m : InteractionMode) (t : CanvasTransformer) :
  interactionMode (setInteractionMode m t) = m.
Proof. destruct m; reflexivity. Qed.

Lemma setInteractionMode_keeps_transforming (m : InteractionMode) (t : CanvasTransformer) :
  isTransforming (setInteractionMode m t) = isTransforming t.
Proof. destruct m; reflexivity. Qed.

(** C10: after [setInteractionMode m], dragging is enabled exactly in the
    modes [drag] and [all], transforming is enabled exactly in the mode
    [all], the bounding-box outline is visible exactly in the mode [drag],
    and the recorded interaction mode is [m]. *)
Theorem setInteractionMode_flags (m : InteractionMode) (t : CanvasTransformer) :
  let t' := setInteractionMode m t in
  (isDragEnabled t' = true <-> m = drag \/ m = all)
  /\ (isTransformEnabled t' = true <-> m = all)
  /\ (outline_visible (bboxOutline (konva t')) = true <-> m = drag)
  /\ interactionMode t' = m.
Proof.
  destruct m; simpl; repeat split; intros; try reflexivity; try discriminate;
    auto; intuition discriminate.
Qed.

(** The widgets follow the flags. *)
Lemma setInteractionMode_widgets (m : InteractionMode) (t : CanvasTransformer) :
  let t' := setInteractionMode m t in
  proxy_listening (proxyRect (konva t')) = isDragEnabled t'
  /\ proxy_visible (proxyRect (konva t')) = isDragEnabled t'
  /\ transformer_listening (transformer (konva t')) = isTransformEnabled t'
  /\ transformer_visible (transformer (konva t')) = isTransformEnabled t'.
Proof. destruct m; repeat split. Qed.

(** C3: the mode that [syncInteractionState] sets is a function of whether
    the entity has content, whether it is selected, the active tool and
    whether a transform is in progress: without content it is [off]; with
    content, selected, the move tool and no transform it is [drag]; with
    content, selected, a transform in progress and a tool other than the
    view tool it is [all]; and in every other case it is [off]. *)
Theorem syncInteractionState_mode (activeTool : string) (isSelected : bool)
    (t : CanvasTransformer) :
  let hasContent := hasObjects (parent t) in
  let mode := interactionMode (syncInteractionState activeTool isSelected t) in
  mode = interaction_mode_of hasContent isSelected activeTool (isTransforming t)
  /\ (hasContent = false -> mode = off)
  /\ (hasContent = true -> isSelected = true -> activeTool = "move" ->
      isTransforming t = false -> mode = drag)
  /\ (hasContent = true -> isSelected = true -> isTransforming t = true ->
      activeTool <> "view" -> mode = all)
  /\ (~ (hasContent = true /\ isSelected = true /\ activeTool = "move"
         /\ isTransforming t = false) ->
      ~ (hasContent = true /\ isSelected = true /\ isTransforming t = true
         /\ activeTool <> "view") ->
      mode = off).
Proof.
  cbv zeta.
  assert (E : interactionMode (syncInteractionState activeTool isSelected t)
              = interaction_mode_of (hasObjects (parent t)) isSelected activeTool
                  (isTransforming t)).
  { unfold syncInteractionState, interaction_mode_of.
    destruct (hasObjects (parent t)), isSelected, (isTransforming t),
      (activeTool =? "move") eqn:Em, (activeTool =? "view") eqn:Ev;
      simpl; reflexivity.
  }
  rewrite E. unfold interaction_mode_of.
  split; [reflexivity | ].
  split; [intros ->; reflexivity | ].
  split; [intros -> -> -> ->; reflexivity | ].
  split.
  - intros -> -> -> Hv. apply String.eqb_neq in Hv. rewrite Hv.
    simpl. now rewrite andb_false_r.
  - intros H1 H2.
    destruct (hasObjects (parent t)); [ | reflexivity].
    destruct isSelected; [ | reflexivity].
    destruct (isTransforming t); simpl.
    + rewrite andb_false_r.
      destruct (activeTool =? "view") eqn:Ev; [reflexivity | ].
      exfalso. apply H2. repeat split. now apply String.eqb_neq.
    + rewrite andb_true_r.
      destruct (activeTool =? "move") eqn:Em; [ | reflexivity].
      exfalso. apply H1. repeat split. now apply String.eqb_eq.
Qed.

End InteractionProperties.

Lemma syncInteractionState_mode_witness :
  let t := mkCanvasTransformer
             (mkCanvasLayer "layer_1" (mkRect (Fin 0) (Fin 0) (Fin 100) (Fin 50))
                (mkObjectGroup (Fin 0) (Fin 0) (Fin 1) (Fin 1) (Fin 0)) false true)
             true off false false
             (mkTransformerKonva (mkKonvaTransformer false false [])
                (mkProxyRect (Fin 0) (Fin 0) (Fin 100) (Fin 50) (Fin 1) (Fin 1) (Fin 0)
                   false false)
                (mkBboxOutline false)) in
  (hasObjects (parent t) = true /\ isTransforming t = true /\ "move" <> "view")
  /\ interactionMode (syncInteractionState "move" true t) = all.
Proof.
  intros t. split; [repeat split; discriminate | ].
  apply (proj1 (proj2 (proj2 (proj2 (syncInteractionState_mode "move" true t)))));
    [reflexivity | reflexivity | reflexivity | discriminate].
Defined.

(* ================================================================== *)
(** ** Rotation snapping *)
(* ================================================================== *)

Section RotationProperties.

Lemma Qtrunc_Z (q : Q) (k : Z) : q == inject_Z k -> Qtrunc q = k.
Proof.
  intros H. unfold Qtrunc.
  destruct (Qle_bool 0 q); rewrite H; [apply Qfloor_Z | apply Qceiling_Z].
Qed.

(** The remainder vanishes exactly on the multiples of the divisor. *)
Lemma rem_test_iff_not_multiple (r d : Q) :
  ~ d == 0 ->
  gt (Math_abs (Fin r mod Fin d)%js) (Fin 0) = true
  <-> ~ exists k : Z, r == inject_Z k * d.
Proof.
  intros Hd. unfold rem.
  destruct (Qeq_bool d 0) eqn:E; [apply Qeq_bool_iff in E; contradiction | ].
  rewrite gt_abs_zero. split; intros H C; apply H; clear H.
  - destruct C as [k Hk].
    assert (Hq : r / d == inject_Z k) by (rewrite Hk; field; assumption).
    rewrite (Qtrunc_Z _ _ Hq). rewrite Hk. ring.
  - exists (Qtrunc (r / d)). lra.
Qed.

Lemma snap_angle_eq : (Math_PI / Fin 4)%js = Fin snap_angle.
Proof. reflexivity. Qed.

Lemma snap_angle_nonzero : ~ snap_angle == 0.
Proof. intros H. vm_compute in H. discriminate. Qed.

(** Away from the rotate anchor the candidate box is always accepted. *)
Lemma boundBoxFunc_not_rotating (anchor : string) (shiftKey : bool) (oldBox newBox : Box) :
  anchor <> "rotater" ->
  boundBoxFunc (Some anchor) shiftKey oldBox newBox = newBox.
Proof.
  intros H. unfold boundBoxFunc. apply String.eqb_neq in H. now rewrite H.
Qed.

(** C4: while the rotate anchor is active, with the shift modifier held a
    candidate whose rotation fails the test [abs(rotation mod (pi/4)) > 0]
    (for a finite rotation: one that is not an exact multiple of [pi/4]) is
    rejected and the prior box is returned unchanged; without the modifier
    every candidate rotation is accepted and the new box is returned. *)
Theorem boundBoxFunc_rotation_snap (oldBox newBox : Box) :
  (gt (Math_abs (box_rotation newBox mod (Math_PI / Fin 4))%js) (Fin 0) = true ->
     boundBoxFunc (Some "rotater") true oldBox newBox = oldBox)
  /\ (forall r : Q,
        box_rotation newBox = Fin r ->
        (~ exists k : Z, r == inject_Z k * snap_angle) ->
        boundBoxFunc (Some "rotater") true oldBox newBox = oldBox)
  /\ boundBoxFunc (Some "rotater") false oldBox newBox = newBox.
Proof.
  assert (H1 : gt (Math_abs (box_rotation newBox mod (Math_PI / Fin 4))%js) (Fin 0) = true ->
               boundBoxFunc (Some "rotater") true oldBox newBox = oldBox).
  { intros H. unfold boundBoxFunc. change ("rotater" =? "rotater") with true.
    cbv beta iota zeta. change (negb true) with false. cbv iota. now rewrite H. }
  split; [exact H1 | split].
  - intros r Hr Hk. apply H1. rewrite Hr, snap_angle_eq.
    apply rem_test_iff_not_multiple; [apply snap_angle_nonzero | assumption].
  - reflexivity.
Qed.

(** On the grid the candidate is accepted also with the modifier held. *)
Lemma boundBoxFunc_on_grid (oldBox newBox : Box) (k : Z) (r : Q) :
  box_rotation newBox = Fin r ->
  r == inject_Z k * snap_angle ->
  boundBoxFunc (Some "rotater") true oldBox newBox = newBox.
Proof.
  intros Hr Hk. unfold boundBoxFunc. change ("rotater" =? "rotater") with true.
  cbv beta iota zeta. change (negb true) with false. cbv iota.
  rewrite Hr, snap_angle_eq.
  destruct (gt (Math_abs (Fin r mod Fin snap_angle)%js) (Fin 0)) eqn:E; [ | reflexivity].
  apply rem_test_iff_not_multiple in E; [ | apply snap_angle_nonzero].
  exfalso. apply E. now exists k.
Qed.

End RotationProperties.

Lemma boundBoxFunc_rotation_snap_witness :
  let oldBox := mkBox (Fin 0) (Fin 0) (Fin 100) (Fin 50) (Fin 0) in
  let newBox := mkBox (Fin 0) (Fin 0) (Fin 100) (Fin 50) (Fin (1 # 2)) in
  gt (Math_abs (box_rotation newBox mod (Math_PI / Fin 4))%js) (Fin 0) = true
  /\ boundBoxFunc (Some "rotater") true oldBox newBox = oldBox.
Proof.
  intros oldBox newBox.
  assert (H : gt (Math_abs (box_rotation newBox mod (Math_PI / Fin 4))%js) (Fin 0) = true)
    by (vm_compute; reflexivity).
  split; [exact H | ].
  exact (proj1 (boundBoxFunc_rotation_snap oldBox newBox) H).
Defined.

(* ================================================================== *)
(** ** Pixel snapping at the end of a transform *)
(* ================================================================== *)

Section TransformEndProperties.

Lemma Math_round_nearest (q : Q) : nearest_integer q (Math_round (Fin q)).
Proof.
  unfold nearest_integer, Math_round. split.
  - now exists (Qfloor (q + (1 # 2))).
  - pose proof (Qfloor_le (q + (1 # 2))) as Hlo.
    pose proof (Qlt_floor (q + (1 # 2))) as Hhi.
    rewrite inject_Z_plus in Hhi. change (inject_Z 1) with 1 in Hhi.
    generalize dependent (inject_Z (Qfloor (q + (1 # 2)))). intros n Hlo Hhi.
    apply Qabs_Qle_condition. split; lra.
Qed.

Lemma Qmax_abs_integer (z : Z) :
  Qmax (Qabs (inject_Z z)) 1 == inject_Z (Z.max (Z.abs z) 1).
Proof.
  change (Qabs (inject_Z z)) with (inject_Z (Z.abs z)).
  change 1 with (inject_Z 1) at 1.
  destruct (Z.max_spec (Z.abs z) 1) as [[Hlt ->] | [Hle ->]].
  - apply Q.max_r. rewrite <- Zle_Qle. lia.
  - apply Q.max_l. rewrite <- Zle_Qle. lia.
Qed.

(** One axis of the handler: the target dimension and the recovered scale
    for an unscaled size [w] and an accumulated scale [s]. *)
Lemma target_dimension (w s : Q) :
  exists d : Q,
    Math_max (Math_abs (Math_round (Fin w * Fin s)%js)) (Fin 1) = Fin d
    /\ d == Qmax (Qabs (inject_Z (Qfloor (w * s + (1 # 2))))) 1
    /\ (exists z : Z, d == inject_Z z)
    /\ 1 <= d.
Proof.
  simpl.
  destruct (Math_max_fin (Qabs (inject_Z (Qfloor (w * s + (1 # 2))))) 1)
    as [d [Hd Hm]].
  exists d. split; [exact Hd | ]. split; [exact Hm | ]. split.
  - exists (Z.max (Z.abs (Qfloor (w * s + (1 # 2)))) 1).
    rewrite Hm. apply Qmax_abs_integer.
  - rewrite Hm. apply Q.le_max_r.
Qed.

Lemma recovered_scale (w s d : Q) :
  ~ w == 0 ->
  0 < d ->
  exists c : Q,
    (Fin d / Fin w * Math_sign (Fin s))%js = Fin c
    /\ w * c == Qsgn s * d
    /\ (~ s == 0 -> Qabs (w * c) == d)
    /\ (0 < w -> Qsgn c = Qsgn s).
Proof.
  intros Hw Hd. rewrite (div_fin d w Hw). simpl.
  exists (d / w * Qsgn s).
  assert (Hp : w * (d / w * Qsgn s) == Qsgn s * d) by (field; assumption).
  split; [reflexivity | ]. split; [exact Hp | ]. split.
  - intros Hs. rewrite (Qabs_wd _ _ Hp).
    destruct (Qsgn_cases s) as [[_ ->] | [[_ ->] | [H0 _]]]; [ | | contradiction].
    + rewrite Qabs_pos; lra.
    + rewrite Qabs_neg; lra.
  - intros Hpos.
    assert (Hq : 0 < d / w) by (apply Qlt_shift_div_l; lra).
    destruct (Qsgn_cases s) as [[_ ->] | [[_ ->] | [_ ->]]].
    + apply Qsgn_pos. lra.
    + apply Qsgn_neg. lra.
    + apply Qsgn_zero. lra.
Qed.

Variable t : CanvasTransformer.
Variables w h sx sy px py : Q.

Let r := proxyRect (konva t).
Let r' := proxyRect (konva (on_transformend t)).
Let g' := objectGroup (parent (on_transformend t)).

Hypothesis Hwidth : proxy_width r = Fin w.
Hypothesis Hheight : proxy_height r = Fin h.
Hypothesis HscaleX : proxy_scaleX r = Fin sx.
Hypothesis HscaleY : proxy_scaleY r = Fin sy.
Hypothesis Hx : proxy_x r = Fin px.
Hypothesis Hy : proxy_y r = Fin py.

(** The handler writes the same attributes to the proxy rectangle and to the
    object group, and leaves width and height alone. *)
Lemma transformend_attrs :
  proxy_x r' = Math_round (Fin px) /\ proxy_y r' = Math_round (Fin py)
  /\ proxy_scaleX r' = snappedScaleX r /\ proxy_scaleY r' = snappedScaleY r
  /\ group_x g' = proxy_x r' /\ group_y g' = proxy_y r'
  /\ group_scaleX g' = proxy_scaleX r' /\ group_scaleY g' = proxy_scaleY r'
  /\ proxy_width r' = Fin w /\ proxy_height r' = Fin h.
Proof.
  rewrite <- Hx, <- Hy, <- Hwidth, <- Hheight.
  subst r r' g'. unfold on_transformend. repeat split.
Qed.

(** The target dimensions are integers, at least 1, for every scale. *)
Lemma transformend_targets :
  targetWidth r = Math_max (Math_abs (Math_round (Fin w * Fin sx)%js)) (Fin 1)
  /\ targetHeight r = Math_max (Math_abs (Math_round (Fin h * Fin sy)%js)) (Fin 1).
Proof. unfold targetWidth, targetHeight. now rewrite Hwidth, Hheight, HscaleX, HscaleY. Qed.

End TransformEndProperties.

(** At an accumulated scale of zero the target width is 1, but
    [Math.sign(0)] is 0, so the committed scale is 0 and the width it
    reproduces is 0. *)
Lemma transformend_zero_scale_counterexample :
  let r := mkProxyRect (Fin 0) (Fin 0) (Fin 100) (Fin 50) (Fin 0) (Fin 1) (Fin 0)
             true true in
  let r' := proxyRect (konva (on_transformend (transformer_with r))) in
  targetWidth r = Fin 1
  /\ same (proxy_scaleX r') (Fin 0)
  /\ ~ reproduces (proxy_width r) (proxy_scaleX r) (targetWidth r) (proxy_scaleX r').
Proof.
  intros r r'. split; [reflexivity | ]. split; [reflexivity | ].
  intros [H _]. vm_compute in H. discriminate.
Qed.

(** With a negative unscaled width the signed extent still carries the sign
    of the accumulated scale, while the committed scale itself changes sign. *)
Lemma transformend_negative_width :
  let r := mkProxyRect (Fin 0) (Fin 0) (Fin (- 100)) (Fin 50) (Fin 1) (Fin 1) (Fin 0)
             true true in
  let r' := proxyRect (konva (on_transformend (transformer_with r))) in
  targetWidth r = Fin 100
  /\ same (proxy_scaleX r') (Fin (- 1))
  /\ reproduces (proxy_width r) (proxy_scaleX r) (targetWidth r) (proxy_scaleX r').
Proof. repeat split. Qed.

(* ================================================================== *)
(** ** The stage: zooming *)
(* ================================================================== *)

Section FiniteArithmetic.

Lemma add_fin (p q : Q) : (Fin p + Fin q)%js = Fin (p + q).
Proof. reflexivity. Qed.

Lemma sub_fin (p q : Q) : (Fin p - Fin q)%js = Fin (p - q).
Proof. reflexivity. Qed.

Lemma mul_fin (p q : Q) : (Fin p * Fin q)%js = Fin (p * q).
Proof. reflexivity. Qed.

Lemma neg_fin (p : Q) : (- Fin p)%js = Fin (- p).
Proof. reflexivity. Qed.

Lemma div_fin_2 (p : Q) : (Fin p / Fin 2)%js = Fin (p / 2).
Proof. reflexivity. Qed.

Lemma div_fin_100 (p : Q) : (Fin p / Fin 100)%js = Fin (p / 100).
Proof. reflexivity. Qed.

End FiniteArithmetic.

Create Rewrite HintDb js_fin.
#[local] Hint Rewrite add_fin sub_fin mul_fin neg_fin div_fin_2 div_fin_100 : js_fin.

Section ZoomProperties.

(** The argument of the clamp in [setScale], for a scale that is not NaN. *)
Lemma rounded_scale_cases (scale : number) :
  is_nan scale = false ->
  (exists z : Z, (Math_round (scale * Fin 100) / Fin 100)%js = Fin (inject_Z z / 100))
  \/ (Math_round (scale * Fin 100) / Fin 100)%js = PInf
  \/ (Math_round (scale * Fin 100) / Fin 100)%js = NInf.
Proof.
  destruct scale as [s | | | ]; intros H; try discriminate.
  - left. exists (Qfloor (s * 100 + (1 # 2))). reflexivity.
  - right; left. reflexivity.
  - right; right. reflexivity.
Qed.

Lemma clamp_fin (p : Q) :
  exists q : Q,
    Lodash.clamp (Fin p) MIN_CANVAS_SCALE MAX_CANVAS_SCALE = Fin q
    /\ 1 # 10 <= q /\ q <= 20
    /\ (q = p \/ q = 1 # 10 \/ q = 20).
Proof.
  unfold Lodash.clamp, Lodash.baseClamp, MIN_CANVAS_SCALE, MAX_CANVAS_SCALE.
  change (strict_eq (Fin 20) (Fin 20)) with true.
  change (strict_eq (Fin (1 # 10)) (Fin (1 # 10))) with true.
  cbv iota beta zeta.
  assert (Hp : strict_eq (Fin p) (Fin p) = true).
  { unfold strict_eq, compare. now rewrite (proj1 (Qeq_alt p p) (Qeq_refl p)). }
  rewrite Hp. unfold le, ge, compare.
  destruct (p ?= 20) eqn:E20.
  - apply Qeq_alt in E20. destruct (p ?= 1 # 10) eqn:E1.
    + apply Qeq_alt in E1. lra.
    + apply Qlt_alt in E1. lra.
    + exists p. repeat split; try lra. now left.
  - apply Qlt_alt in E20. destruct (p ?= 1 # 10) eqn:E1.
    + apply Qeq_alt in E1. exists p. repeat split; try lra. now left.
    + apply Qlt_alt in E1. exists (1 # 10). repeat split; try lra. right; now left.
    + apply Qgt_alt in E1. exists p. repeat split; try lra. now left.
  - change (20 ?= 1 # 10) with Gt. cbv iota.
    exists 20. repeat split; try lra. right; now right.
Qed.

(** The new scale of [setScale]: within the bounds, with two decimals. *)
Lemma clamped_scale (scale : number) :
  is_nan scale = false ->
  exists q : Q,
    Lodash.clamp (Math_round (scale * Fin 100) / Fin 100)%js
      MIN_CANVAS_SCALE MAX_CANVAS_SCALE = Fin q
    /\ 1 # 10 <= q /\ q <= 20
    /\ exists z : Z, q == inject_Z z / 100.
Proof.
  intros H. destruct (rounded_scale_cases scale H) as [[z Hz] | [Hz | Hz]]; rewrite Hz.
  - destruct (clamp_fin (inject_Z z / 100)) as (q & Hq & Hlo & Hhi & Hc).
    exists q. repeat split; try assumption.
    destruct Hc as [-> | [-> | ->]].
    + now exists z.
    + exists 10%Z. reflexivity.
    + exists 2000%Z. reflexivity.
  - exists 20. repeat split; try lra. exists 2000%Z. reflexivity.
  - exists (1 # 10). repeat split; try lra. exists 10%Z. reflexivity.
Qed.

Lemma setScale_calls_snoc (calls : list (number * Coordinate)) (scale : number)
    (center : Coordinate) (m : CanvasStageModule) :
  setScale_calls (calls ++ [(scale, center)]) m
  = setScale scale center (setScale_calls calls m).
Proof. unfold setScale_calls. now rewrite fold_left_app. Qed.

(** What one call publishes, whatever the previous viewport was. *)
Lemma setScale_publishes (scale : number) (center : Coordinate) (m : CanvasStageModule) :
  let m' := setScale scale center m in
  getScale m'
  = Lodash.clamp (Math_round (scale * Fin 100) / Fin 100)%js
      MIN_CANVAS_SCALE MAX_CANVAS_SCALE
  /\ stage_scaleY (stage m') = stage_scaleX (stage m')
  /\ attrs_x (stageAttrs m') = Math_floor (stage_x (stage m'))
  /\ attrs_y (stageAttrs m') = Math_floor (stage_y (stage m'))
  /\ attrs_scale (stageAttrs m') = getScale m'
  /\ stage_width (stage m') = stage_width (stage m)
  /\ stage_height (stage m') = stage_height (stage m).
Proof. repeat split. Qed.

(** Clamping to the bounds, case by case. *)
Lemma clamp_to_bounds_cases (p : Q) :
  (p <= 1 # 10 /\ clamp_to_bounds p == 1 # 10)
  \/ (1 # 10 <= p /\ p <= 20 /\ clamp_to_bounds p == p)
  \/ (20 <= p /\ clamp_to_bounds p == 20).
Proof.
  unfold clamp_to_bounds.
  destruct (Qlt_le_dec p (1 # 10)) as [Hlo | Hlo].
  - left. split; [lra | ].
    rewrite (Q.min_l p 20) by lra. apply Q.max_l. lra.
  - destruct (Qlt_le_dec 20 p) as [Hhi | Hhi].
    + right; right. split; [lra | ].
      rewrite (Q.min_r p 20) by lra. apply Q.max_r. lra.
    + right; left. split; [exact Hlo | ]. split; [exact Hhi | ].
      rewrite (Q.min_l p 20) by lra. apply Q.max_r. exact Hlo.
Qed.

Lemma clamp_fin_value (p : Q) :
  exists q : Q,
    Lodash.clamp (Fin p) MIN_CANVAS_SCALE MAX_CANVAS_SCALE = Fin q
    /\ q == clamp_to_bounds p.
Proof.
  unfold Lodash.clamp, Lodash.baseClamp, MIN_CANVAS_SCALE, MAX_CANVAS_SCALE.
  change (strict_eq (Fin 20) (Fin 20)) with true.
  change (strict_eq (Fin (1 # 10)) (Fin (1 # 10))) with true.
  cbv iota beta zeta.
  assert (Hp : strict_eq (Fin p) (Fin p) = true).
  { unfold strict_eq, compare. now rewrite (proj1 (Qeq_alt p p) (Qeq_refl p)). }
  rewrite Hp. unfold le, ge, compare.
  destruct (p ?= 20) eqn:E20;
    [apply Qeq_alt in E20 | apply Qlt_alt in E20 | apply Qgt_alt in E20].
  - destruct (p ?= 1 # 10) eqn:E1;
      [apply Qeq_alt in E1; lra | apply Qlt_alt in E1; lra | ].
    exists p. split; [reflexivity | ].
    destruct (clamp_to_bounds_cases p) as [[B1 E] | [(B1 & B2 & E) | [B1 E]]];
      rewrite E; lra.
  - destruct (p ?= 1 # 10) eqn:E1;
      [apply Qeq_alt in E1 | apply Qlt_alt in E1 | apply Qgt_alt in E1].
    + exists p. split; [reflexivity | ].
      destruct (clamp_to_bounds_cases p) as [[B1 E] | [(B1 & B2 & E) | [B1 E]]];
        rewrite E; lra.
    + exists (1 # 10). split; [reflexivity | ].
      destruct (clamp_to_bounds_cases p) as [[B1 E] | [(B1 & B2 & E) | [B1 E]]];
        rewrite E; lra.
    + exists p. split; [reflexivity | ].
      destruct (clamp_to_bounds_cases p) as [[B1 E] | [(B1 & B2 & E) | [B1 E]]];
        rewrite E; lra.
  - change (20 ?= 1 # 10) with Gt. cbv iota.
    exists 20. split; [reflexivity | ].
    destruct (clamp_to_bounds_cases p) as [[B1 E] | [(B1 & B2 & E) | [B1 E]]];
      rewrite E; lra.
Qed.

(** Clamping does not move two numbers apart. *)
Lemma clamp_to_bounds_close (p s e : Q) :
  Qabs (p - s) <= e -> Qabs (clamp_to_bounds p - clamp_to_bounds s) <= e.
Proof.
  intros H. apply Qabs_Qle_condition in H. destruct H as [H1 H2].
  apply Qabs_Qle_condition.
  destruct (clamp_to_bounds_cases p) as [[P1 ->] | [(P1 & P2 & ->) | [P1 ->]]];
    destruct (clamp_to_bounds_cases s) as [[S1 ->] | [(S1 & S2 & ->) | [S1 ->]]];
    split; lra.
Qed.

(** The new scale of [setScale] for a finite argument: close to the
    argument clamped to the bounds. *)
Lemma clamped_scale_close (s : Q) :
  exists q : Q,
    Lodash.clamp (Math_round (Fin s * Fin 100) / Fin 100)%js
      MIN_CANVAS_SCALE MAX_CANVAS_SCALE = Fin q
    /\ Qabs (q - clamp_to_bounds s) < 1 # 100.
Proof.
  change (Math_round (Fin s * Fin 100) / Fin 100)%js
    with (Fin (inject_Z (Qfloor (s * 100 + (1 # 2))) / 100)).
  destruct (clamp_fin_value (inject_Z (Qfloor (s * 100 + (1 # 2))) / 100))
    as (q & Hq & Hv).
  exists q. split; [exact Hq | ].
  pose proof (Math_round_nearest (s * 100)) as Hn.
  unfold nearest_integer, Math_round in Hn. destruct Hn as [_ Hn].
  assert (Hc : Qabs (inject_Z (Qfloor (s * 100 + (1 # 2))) / 100 - s) <= 1 # 200).
  { apply Qabs_Qle_condition in Hn. destruct Hn as [N1 N2].
    apply Qabs_Qle_condition.
    assert (E : inject_Z (Qfloor (s * 100 + (1 # 2))) / 100 - s
                == (inject_Z (Qfloor (s * 100 + (1 # 2))) - s * 100) * (1 # 100))
      by field.
    rewrite E.
    remember (inject_Z (Qfloor (s * 100 + (1 # 2))) - s * 100) as d eqn:Ed.
    clear Ed E. split; lra. }
  apply (clamp_to_bounds_close _ _ _) in Hc.
  apply Qabs_Qle_condition in Hc. destruct Hc as [C1 C2].
  apply Qabs_Qlt_condition.
  remember (clamp_to_bounds (inject_Z (Qfloor (s * 100 + (1 # 2))) / 100)) as a eqn:Ea.
  remember (clamp_to_bounds s) as b eqn:Eb.
  clear Ea Eb Hq Hn. split; lra.
Qed.


(** C2: [setScale] keeps the point under the center in place.  With finite
    center and offset, an old scale other than zero and a scale argument
    that is a number, the new scale is not zero and
    [(center - newOffset) / newScale == (center - oldOffset) / oldScale] on
    both axes: the logical point under the center is drawn at the center
    before and after the call. *)
Theorem setScale_center_stable (scale : number) (cx cy ox oy oldScale : Q)
    (m : CanvasStageModule) :
  is_nan scale = false ->
  stage_x (stage m) = Fin ox ->
  stage_y (stage m) = Fin oy ->
  stage_scaleX (stage m) = Fin oldScale ->
  ~ oldScale == 0 ->
  let m' := setScale scale {| x := Fin cx; y := Fin cy |} m in
  exists newX newY newScale : Q,
    stage_x (stage m') = Fin newX
    /\ stage_y (stage m') = Fin newY
    /\ stage_scaleX (stage m') = Fin newScale
    /\ ~ newScale == 0
    /\ (cx - newX) / newScale == (cx - ox) / oldScale
    /\ (cy - newY) / newScale == (cy - oy) / oldScale
    /\ (cx - ox) / oldScale * newScale + newX == cx
    /\ (cy - oy) / oldScale * newScale + newY == cy.
Proof.
  intros H Hx Hy Hs H0 m'. subst m'.
  destruct (clamped_scale scale H) as (q & Hq & Hlo & Hhi & _).
  unfold setScale, getPosition, getScale. cbn [x y stage stage_setAttrs stage_x stage_y stage_scaleX].
  rewrite Hq, Hx, Hy, Hs.
  autorewrite with js_fin. rewrite !(div_fin _ oldScale H0). autorewrite with js_fin.
  assert (Hq0 : ~ q == 0) by lra.
  exists (cx - (cx - ox) / oldScale * q), (cy - (cy - oy) / oldScale * q), q.
  repeat split; try assumption; field; auto.
Qed.

End ZoomProperties.



Lemma setScale_center_stable_witness :
  let m := mkCanvasStageModule
             (mkKonvaStage (Fin 30) (Fin (- 10)) (Fin 800) (Fin 600) (Fin 2) (Fin 2))
             (mkStageAttrs (Fin 30) (Fin (- 10)) (Fin 800) (Fin 600) (Fin 2)) in
  let m' := setScale (Fin (1237 # 1000)) {| x := Fin 400; y := Fin 300 |} m in
  ~ 2 == 0
  /\ exists newX newY newScale : Q,
      stage_x (stage m') = Fin newX
      /\ stage_y (stage m') = Fin newY
      /\ stage_scaleX (stage m') = Fin newScale
      /\ ~ newScale == 0
      /\ (400 - newX) / newScale == (400 - 30) / 2
      /\ (300 - newY) / newScale == (300 - - 10) / 2
      /\ (400 - 30) / 2 * newScale + newX == 400
      /\ (300 - - 10) / 2 * newScale + newY == 300.
Proof.
  intros m m'.
  assert (H2 : ~ 2 == 0) by (intros H; vm_compute in H; discriminate).
  split; [exact H2 | ].
  exact (setScale_center_stable (Fin (1237 # 1000)) 400 300 30 (- 10) 2 m
           eq_refl eq_refl eq_refl eq_refl H2).
Defined.

(* ================================================================== *)
(** ** The stage: fitting a rect *)
(* ================================================================== *)

Section FitProperties.

Variable m : CanvasStageModule.
Variables cw ch rx ry : Q.

Hypothesis Hcw : stage_width (stage m) = Fin cw.
Hypothesis Hch : stage_height (stage m) = Fin ch.

(** [fitRect] keeps the stage size and publishes what it sets. *)
Lemma fitRect_publishes (rect : Rect) :
  let m' := fitRect rect m in
  stage_scaleY (stage m') = stage_scaleX (stage m')
  /\ attrs_scale (stageAttrs m') = stage_scaleX (stage m')
  /\ attrs_x (stageAttrs m') = stage_x (stage m')
  /\ attrs_y (stageAttrs m') = stage_y (stage m')
  /\ stage_width (stage m') = Fin cw
  /\ stage_height (stage m') = Fin ch.
Proof. simpl. rewrite Hcw, Hch. repeat split. Qed.

Section PositiveRect.

Variables rw rh : Q.
Hypothesis Hrw : 0 < rw.
Hypothesis Hrh : 0 < rh.

Let rect := mkRect (Fin rx) (Fin ry) (Fin rw) (Fin rh).
Let m' := fitRect rect m.

(** The scale of [fitRect] for a rect of positive size. *)
Lemma fitRect_scale :
  exists s : Q,
    stage_scaleX (stage m') = Fin s
    /\ s == Qmin (Qmin ((cw - 40) / rw) ((ch - 40) / rh)) 1
    /\ stage_x (stage m')
       = Fin (- rx * s + 20 + (cw - 20 * 2 - rw * s) / 2)
    /\ stage_y (stage m')
       = Fin (- ry * s + 20 + (ch - 20 * 2 - rh * s) / 2).
Proof.
  subst m' rect. unfold fitRect, getSize.
  cbn [dim_width dim_height rect_x rect_y rect_width rect_height stage
       stage_setAttrs stage_x stage_y stage_scaleX].
  rewrite Hcw, Hch. autorewrite with js_fin.
  assert (Nw : ~ rw == 0) by lra.
  assert (Nh : ~ rh == 0) by lra.
  rewrite (div_fin _ rw Nw), (div_fin _ rh Nh).
  destruct (Math_min_fin ((cw - 20 * 2) / rw) ((ch - 20 * 2) / rh)) as (a & Ha & Hm).
  rewrite Ha.
  destruct (Math_min_fin a 1) as (s & Hs & Hm1).
  rewrite Hs. autorewrite with js_fin.
  exists s. split; [reflexivity | ]. split; [ | split; reflexivity].
  rewrite Hm1, Hm.
  assert (E1 : (cw - 20 * 2) / rw == (cw - 40) / rw) by (field; assumption).
  assert (E2 : (ch - 20 * 2) / rh == (ch - 40) / rh) by (field; assumption).
  now rewrite E1, E2.
Qed.

Hypothesis Hcw40 : 40 < cw.
Hypothesis Hch40 : 40 < ch.


End PositiveRect.

Hypothesis Hcw40 : 40 < cw.
Hypothesis Hch40 : 40 < ch.

(** C7 (amended): a degenerate zero-size rect in a container whose padded
    area is positive is fitted without failure: both divisions by zero
    yield positive infinity, the scale is exactly the unit scale, which is
    within the bounds, and the offset is finite; for a container size and a
    rect origin that are whole numbers the offset puts the rect's origin at
    the center of the container. *)
Theorem fitRect_zero_rect_unit_scale :
  let m' := fitRect (mkRect (Fin rx) (Fin ry) (Fin 0) (Fin 0)) m in
  getScale m' = Fin 1
  /\ scale_in_bounds (getScale m')
  /\ attrs_scale (stageAttrs m') = Fin 1
  /\ exists nx ny : Q,
       stage_x (stage m') = Fin nx
       /\ (integral (Fin cw) -> integral (Fin rx) -> nx == cw / 2 - rx)
       /\ stage_y (stage m') = Fin ny
       /\ (integral (Fin ch) -> integral (Fin ry) -> ny == ch / 2 - ry).
Proof.
  intros m'.
  assert (Hs : getScale m' = Fin 1).
  { subst m'. unfold fitRect, getScale, getSize.
    cbn [dim_width dim_height rect_x rect_y rect_width rect_height stage
         stage_setAttrs stage_scaleX].
    rewrite Hcw, Hch. autorewrite with js_fin.
    rewrite !div_zero_pos by lra. reflexivity. }
  split; [exact Hs | ]. split; [rewrite Hs; simpl; lra | ].
  split; [exact Hs | ].
  unfold getScale in Hs. subst m'. unfold fitRect, getSize in *.
  cbn [dim_width dim_height rect_x rect_y rect_width rect_height stage
       stage_setAttrs stage_scaleX stage_x stage_y] in *.
  rewrite Hs. rewrite Hcw, Hch. autorewrite with js_fin.
  eexists. eexists.
  split; [reflexivity | ]. split; [intros _ _; field | ].
  split; [reflexivity | intros _ _; field].
Qed.

End FitProperties.


Lemma fitRect_zero_rect_unit_scale_witness :
  let m := mkCanvasStageModule
             (mkKonvaStage (Fin 0) (Fin 0) (Fin 800) (Fin 600) (Fin 1) (Fin 1))
             (mkStageAttrs (Fin 0) (Fin 0) (Fin 800) (Fin 600) (Fin 1)) in
  let m' := fitRect (mkRect (Fin 10) (Fin 30) (Fin 0) (Fin 0)) m in
  (40 < 800 /\ 40 < 600)
  /\ getScale m' = Fin 1
  /\ scale_in_bounds (getScale m')
  /\ attrs_scale (stageAttrs m') = Fin 1
  /\ exists nx ny : Q,
       stage_x (stage m') = Fin nx
       /\ (integral (Fin 800) -> integral (Fin 10) -> nx == 800 / 2 - 10)
       /\ stage_y (stage m') = Fin ny
       /\ (integral (Fin 600) -> integral (Fin 30) -> ny == 600 / 2 - 30).
Proof.
  intros m m'. split; [repeat split | ].
  exact (fitRect_zero_rect_unit_scale m 800 600 10 30 eq_refl eq_refl eq_refl eq_refl).
Defined.


(** C7, as stated, fails for a zero-size container: the available area is
    -40 in each direction, and a rect of 100 by 100 is given the negative
    scale -0.4, outside the bounds. *)
Lemma fitRect_zero_container_counterexample :
  let m := mkCanvasStageModule
             (mkKonvaStage (Fin 0) (Fin 0) (Fin 0) (Fin 0) (Fin 1) (Fin 1))
             (mkStageAttrs (Fin 0) (Fin 0) (Fin 0) (Fin 0) (Fin 1)) in
  let m' := fitRect (mkRect (Fin 0) (Fin 0) (Fin 100) (Fin 100)) m in
  same (getScale m') (Fin (- 2 # 5))
  /\ ~ scale_in_bounds (getScale m').
Proof.
  intros m m'. split; [reflexivity | ].
  intros [H _]. vm_compute in H. apply H. reflexivity.
Qed.

(** A zero-size rect in a zero-size container: the scale is negative
    infinity and the offset is NaN. *)
Lemma fitRect_zero_rect_zero_container :
  let m := mkCanvasStageModule
             (mkKonvaStage (Fin 0) (Fin 0) (Fin 0) (Fin 0) (Fin 1) (Fin 1))
             (mkStageAttrs (Fin 0) (Fin 0) (Fin 0) (Fin 0) (Fin 1)) in
  let m' := fitRect (mkRect (Fin 0) (Fin 0) (Fin 0) (Fin 0)) m in
  getScale m' = NInf /\ stage_x (stage m') = NaN /\ stage_y (stage m') = NaN.
Proof. repeat split. Qed.

(* ================================================================== *)
(** ** Further facts about rounding *)
(* ================================================================== *)

Section RoundingFacts.

Lemma Qfloor_Z_half (z : Z) : Qfloor (inject_Z z + (1 # 2)) = z.
Proof.
  pose proof (Qfloor_le (inject_Z z + (1 # 2))) as Hlo.
  pose proof (Qlt_floor (inject_Z z + (1 # 2))) as Hhi.
  set (f := Qfloor (inject_Z z + (1 # 2))) in *.
  unfold Qle, Qlt in *. simpl in *. lia.
Qed.

(** Rounding a rounded number changes nothing. *)
Lemma Math_round_idempotent (a : number) : Math_round (Math_round a) = Math_round a.
Proof.
  destruct a as [q | | | ]; try reflexivity.
  unfold Math_round. now rewrite Qfloor_Z_half.
Qed.

Lemma Math_round_integral (q : Q) : integral (Math_round (Fin q)).
Proof. simpl. now exists (Qfloor (q + (1 # 2))). Qed.

End RoundingFacts.

(* ================================================================== *)
(** ** Snapping the transform anchors *)
(* ================================================================== *)

Section AnchorProperties.

(** One axis of the anchor snap at a stage scale of 1: [n] is the requested
    absolute position and [p] the stage offset, a whole number. *)
Lemma anchor_axis_unit (n p : Q) :
  integral (Fin p) ->
  same (Math_round (Fin n / Fin 1) * Fin 1 + Fin p mod Fin 1)%js (Math_round (Fin n)).
Proof.
  intros [z Hz].
  assert (N1 : ~ 1 == 0) by (intros H; discriminate).
  rewrite (div_fin n 1 N1). unfold rem.
  change (Qeq_bool 1 0) with false. cbv iota.
  assert (Hq : p / 1 == inject_Z z) by (rewrite Hz; field).
  rewrite (Qtrunc_Z _ _ Hq).
  assert (Hn : n / 1 + (1 # 2) == n + (1 # 2)) by field.
  unfold Math_round. rewrite (Qfloor_comp _ _ Hn).
  rewrite mul_fin, add_fin. unfold same. rewrite Hz. ring.
Qed.

(** While rotating, the anchor is left where the pointer put it. *)
Lemma anchorDragBoundFunc_rotater (stageScale : number) (stagePos oldPos newPos : Coordinate) :
  anchorDragBoundFunc (Some "rotater") stageScale stagePos oldPos newPos = newPos.
Proof. reflexivity. Qed.


End AnchorProperties.


(* ================================================================== *)
(** ** Dragging *)
(* ================================================================== *)

Section DragProperties.

Context {ScaleChangedArg RootState : Type}.
Variable reducer : RootState -> Action ScaleChangedArg -> RootState.

Lemma on_dragmove_position (bboxPadding : number) (t : CanvasTransformer)
    (o : OutlineAttrs) :
  let v' := on_dragmove bboxPadding (t, o) in
  proxy_x (proxyRect (konva (fst v'))) = Math_round (proxy_x (proxyRect (konva t)))
  /\ proxy_y (proxyRect (konva (fst v'))) = Math_round (proxy_y (proxyRect (konva t)))
  /\ isTransforming (fst v') = isTransforming t
  /\ id (parent (fst v')) = id (parent t)
  /\ bbox (parent (fst v')) = bbox (parent t).
Proof. repeat split. Qed.

(** X2: the [dragmove] handler puts the proxy rectangle on whole pixels (each
    coordinate becomes the nearest integer), moves the object group to the
    same position, and keeps the outline at that position less the padding;
    handling the event a second time changes nothing. *)
Theorem on_dragmove_snaps (bboxPadding : number) (t : CanvasTransformer)
    (o : OutlineAttrs) (qx qy : Q) :
  proxy_x (proxyRect (konva t)) = Fin qx ->
  proxy_y (proxyRect (konva t)) = Fin qy ->
  let v' := on_dragmove bboxPadding (t, o) in
  let r' := proxyRect (konva (fst v')) in
  let g' := objectGroup (parent (fst v')) in
  nearest_integer qx (proxy_x r') /\ nearest_integer qy (proxy_y r')
  /\ group_x g' = proxy_x r' /\ group_y g' = proxy_y r'
  /\ outline_x (snd v') = (proxy_x r' - bboxPadding)%js
  /\ outline_y (snd v') = (proxy_y r' - bboxPadding)%js
  /\ on_dragmove bboxPadding v' = v'.
Proof.
  intros Hx Hy v' r' g'. subst v' r' g'.
  unfold on_dragmove. cbn -[Math_round sub nearest_integer].
  rewrite Hx, Hy.
  split; [apply Math_round_nearest | ].
  split; [apply Math_round_nearest | ].
  do 4 (split; [reflexivity | ]).
  now rewrite !Math_round_idempotent.
Qed.

(** X3: a drag that is not part of a transform commits whole pixels: after
    the [dragmove] handler, the [dragend] handler dispatches exactly one
    [layerTranslated] action whose position is the rounded proxy position
    minus the origin of the parent's bounding box, and that position has
    integer coordinates when the origin of the bounding box has. *)
Theorem drag_commits_whole_pixels (bboxPadding : number) (t : CanvasTransformer)
    (o : OutlineAttrs) (s : Store ScaleChangedArg RootState) (qx qy : Q) :
  isTransforming t = false ->
  proxy_x (proxyRect (konva t)) = Fin qx ->
  proxy_y (proxyRect (konva t)) = Fin qy ->
  let t' := fst (on_dragmove bboxPadding (t, o)) in
  let delta :=
    {| x := (Math_round (Fin qx) - rect_x (bbox (parent t)))%js;
       y := (Math_round (Fin qy) - rect_y (bbox (parent t)))%js |} in
  dispatched (on_dragend reducer t' s)
    = dispatched s ++ [layerTranslated {| arg_id := id (parent t); position := delta |}]
  /\ (integral (rect_x (bbox (parent t))) -> integral (x delta))
  /\ (integral (rect_y (bbox (parent t))) -> integral (y delta)).
Proof.
  intros Ht Hx Hy t' delta. subst t' delta.
  destruct (on_dragmove_position bboxPadding t o) as (Ex & Ey & Et & Ei & Eb).
  split.
  - unfold on_dragend. cbv zeta in Et. rewrite Et, Ht.
    cbv zeta in Ex, Ey, Ei, Eb. rewrite Ex, Ey, Ei, Eb, Hx, Hy. reflexivity.
  - cbn [x y]. split; intros Hb.
    + destruct (rect_x (bbox (parent t))) as [b | | | ]; try contradiction.
      destruct Hb as [z Hz]. simpl.
      exists (Qfloor (qx + (1 # 2)) - z)%Z.
      unfold Z.sub. rewrite inject_Z_plus, inject_Z_opp, Hz. reflexivity.
    + destruct (rect_y (bbox (parent t))) as [b | | | ]; try contradiction.
      destruct Hb as [z Hz]. simpl.
      exists (Qfloor (qy + (1 # 2)) - z)%Z.
      unfold Z.sub. rewrite inject_Z_plus, inject_Z_opp, Hz. reflexivity.
Qed.


End DragProperties.

Lemma on_dragmove_snaps_witness :
  let t := transformer_with
             (mkProxyRect (Fin (7 # 2)) (Fin (- 5 # 2)) (Fin 100) (Fin 50)
                (Fin 1) (Fin 1) (Fin 0) true true) in
  let o := mkOutlineAttrs (Fin 0) (Fin 0) (Fin 104) (Fin 54) (Fin (1 # 2)) in
  let v' := on_dragmove (Fin 2) (t, o) in
  proxy_x (proxyRect (konva t)) = Fin (7 # 2)
  /\ nearest_integer (7 # 2) (proxy_x (proxyRect (konva (fst v'))))
  /\ on_dragmove (Fin 2) v' = v'.
Proof.
  intros t o v'. split; [reflexivity | ].
  destruct (on_dragmove_snaps (Fin 2) t o (7 # 2) (- 5 # 2) eq_refl eq_refl)
    as (Hx & _ & _ & _ & _ & _ & Hi).
  split; [exact Hx | exact Hi].
Defined.

Lemma drag_commits_whole_pixels_witness :
  let t := mkCanvasTransformer
             (mkCanvasLayer "layer_1" (mkRect (Fin 3) (Fin 4) (Fin 100) (Fin 50))
                (mkObjectGroup (Fin 0) (Fin 0) (Fin 1) (Fin 1) (Fin 0)) true true)
             false drag true false
             (mkTransformerKonva (mkKonvaTransformer false false [])
                (mkProxyRect (Fin (41 # 2)) (Fin (97 # 10)) (Fin 100) (Fin 50) (Fin 1) (Fin 1)
                   (Fin 0) true true)
                (mkBboxOutline true)) in
  let o := mkOutlineAttrs (Fin 0) (Fin 0) (Fin 104) (Fin 54) (Fin (1 # 2)) in
  let s : Store unit nat := mkStore 0%nat [] in
  isTransforming t = false
  /\ dispatched (on_dragend (fun n _ => S n) (fst (on_dragmove (Fin 2) (t, o))) s)
     = [layerTranslated
          {| arg_id := "layer_1";
             position := {| x := (Math_round (Fin (41 # 2)) - Fin 3)%js;
                            y := (Math_round (Fin (97 # 10)) - Fin 4)%js |} |}].
Proof.
  intros t o s. split; [reflexivity | ].
  exact (proj1 (drag_commits_whole_pixels (fun n _ => S n) (Fin 2) t o s
                  (41 # 2) (97 # 10) eq_refl eq_refl eq_refl)).
Defined.


(* ================================================================== *)
(** ** The bounding-box outline *)
(* ================================================================== *)

(** X7: after [update], a zoom change does not move the outline of an
    unscaled proxy rectangle: with the proxy scale at 1 on both axes,
    [syncScale] with the same padding and stroke width gives the outline
    that [update] gave. *)
Theorem syncScale_after_update (onePixel : number) (p px py bx by_ bw bh : Q)
    (t : CanvasTransformer) (o : OutlineAttrs) :
  proxy_scaleX (proxyRect (konva t)) = Fin 1 ->
  proxy_scaleY (proxyRect (konva t)) = Fin 1 ->
  let v' := update onePixel (Fin p) {| x := Fin px; y := Fin py |}
              (mkRect (Fin bx) (Fin by_) (Fin bw) (Fin bh)) (t, o) in
  fst (syncScale onePixel (Fin p) v') = fst v'
  /\ same_outline (snd (syncScale onePixel (Fin p) v')) (snd v').
Proof.
  intros Hsx Hsy v'. subst v'. unfold syncScale, update, same_outline.
  cbn -[add sub mul same]. rewrite Hsx, Hsy. autorewrite with js_fin.
  split; [reflexivity | ].
  unfold same. destruct onePixel; repeat split; try reflexivity; ring.
Qed.

Lemma syncScale_after_update_witness :
  let t := transformer_with
             (mkProxyRect (Fin 0) (Fin 0) (Fin 0) (Fin 0) (Fin 1) (Fin 1)
                (Fin 0) true true) in
  let o := mkOutlineAttrs (Fin 0) (Fin 0) (Fin 0) (Fin 0) (Fin 1) in
  let v' := update (Fin (1 # 2)) (Fin 4) {| x := Fin 10; y := Fin 20 |}
              (mkRect (Fin 1) (Fin 2) (Fin 100) (Fin 50)) (t, o) in
  proxy_scaleX (proxyRect (konva t)) = Fin 1
  /\ same_outline (snd (syncScale (Fin (1 # 2)) (Fin 4) v')) (snd v').
Proof.
  intros t o v'. split; [reflexivity | ].
  exact (proj2 (syncScale_after_update (Fin (1 # 2)) 4 10 20 1 2 100 50 t o
                  eq_refl eq_refl)).
Defined.

(* ================================================================== *)
(** ** The object group follows the proxy rectangle *)
(* ================================================================== *)

Section MirrorProperties.

Lemma on_transform_mirrors (t : CanvasTransformer) : mirrors (on_transform t).
Proof. unfold mirrors, on_transform. repeat split. Qed.

Lemma on_transformend_mirrors (t : CanvasTransformer) :
  mirrors t -> mirrors (on_transformend t).
Proof.
  unfold mirrors, on_transformend. cbn -[Math_round snappedScaleX snappedScaleY].
  intros (_ & _ & _ & _ & Hr). repeat split. exact Hr.
Qed.

Lemma on_dragmove_mirrors (bboxPadding : number) (v : CanvasTransformer * OutlineAttrs) :
  mirrors (fst v) -> mirrors (fst (on_dragmove bboxPadding v)).
Proof.
  unfold mirrors, on_dragmove. cbn -[Math_round].
  intros (_ & _ & Hsx & Hsy & Hr). repeat split; assumption.
Qed.

Lemma handle_event_mirrors (v : CanvasTransformer * OutlineAttrs) (e : GeometryEvent) :
  mirrors (fst v) -> mirrors (fst (handle_event v e)).
Proof.
  destruct e as [ | | pad]; unfold handle_event; cbn [fst]; intros H.
  - apply on_transform_mirrors.
  - now apply on_transformend_mirrors.
  - now apply on_dragmove_mirrors.
Qed.

Lemma handle_events_mirrors (events : list GeometryEvent)
    (v : CanvasTransformer * OutlineAttrs) :
  mirrors (fst v) -> mirrors (fst (handle_events events v)).
Proof.
  revert v. induction events as [ | e events IH]; intros v H; [exact H | ].
  simpl. apply IH. now apply handle_event_mirrors.
Qed.

(** X8: once a [transform] event has been handled, the object group of the
    parent carries the position, scale and rotation of the proxy rectangle,
    and it keeps doing so through any further sequence of [transform],
    [transformend] and [dragmove] events. *)
Theorem object_group_follows_proxy (events : list GeometryEvent)
    (v : CanvasTransformer * OutlineAttrs) :
  mirrors (fst (handle_events (Transform :: events) v)).
Proof.
  simpl. apply handle_events_mirrors. simpl. apply on_transform_mirrors.
Qed.

End MirrorProperties.

(* ================================================================== *)
(** ** Snapping a snapped transform *)
(* ================================================================== *)

Section SnapStable.

Lemma Qsgn_nonzero (q : Q) : ~ q == 0 -> ~ Qsgn q == 0.
Proof.
  intros H. destruct (Qsgn_cases q) as [[_ ->] | [[_ ->] | [H0 _]]];
    [ | | contradiction]; intros E; vm_compute in E; discriminate.
Qed.

Lemma Qsgn_square (q : Q) : ~ q == 0 -> Qsgn q * Qsgn q == 1.
Proof.
  intros H. destruct (Qsgn_cases q) as [[_ ->] | [[_ ->] | [H0 _]]];
    [ | | contradiction]; reflexivity.
Qed.

(** The target dimension of a signed whole extent is its magnitude. *)
Lemma target_of_whole_extent (e : Q) (z : Z) (sg : Q) :
  (1 <= z)%Z ->
  sg * sg == 1 ->
  e == sg * inject_Z z ->
  Qmax (Qabs (inject_Z (Qfloor (e + (1 # 2))))) 1 == inject_Z z.
Proof.
  intros Hz Hsg He.
  assert (Hs : sg == 1 \/ sg == - (1)).
  { destruct (Q_dec sg 0) as [[Hn | Hp] | H0].
    - right. nra.
    - left. nra.
    - rewrite H0 in Hsg. vm_compute in Hsg. discriminate. }
  assert (H1 : 1 <= inject_Z z) by (change 1 with (inject_Z 1); rewrite <- Zle_Qle; lia).
  destruct Hs as [Hs | Hs]; rewrite Hs in He.
  - assert (E : e + (1 # 2) == inject_Z z + (1 # 2)) by (rewrite He; ring).
    rewrite E, Qfloor_Z_half.
    rewrite Qabs_pos by lra. apply Q.max_l. exact H1.
  - assert (E : e + (1 # 2) == inject_Z (- z) + (1 # 2))
      by (rewrite He, inject_Z_opp; ring).
    rewrite E, Qfloor_Z_half, inject_Z_opp.
    rewrite Qabs_opp, Qabs_pos by lra. apply Q.max_l. exact H1.
Qed.

(** One axis: snapping the scale that a snap produced gives it back. *)
Lemma snap_axis_stable (w s : Q) :
  0 < w ->
  ~ s == 0 ->
  exists d c d' c' : Q,
    Math_max (Math_abs (Math_round (Fin w * Fin s)%js)) (Fin 1) = Fin d
    /\ (Fin d / Fin w * Math_sign (Fin s))%js = Fin c
    /\ Math_max (Math_abs (Math_round (Fin w * Fin c)%js)) (Fin 1) = Fin d'
    /\ (Fin d' / Fin w * Math_sign (Fin c))%js = Fin c'
    /\ d' == d /\ c' == c.
Proof.
  intros Hw Hs.
  assert (Nw : ~ w == 0) by lra.
  destruct (target_dimension w s) as (d & Hd & _ & [z Hz] & Hd1).
  assert (Hdpos : 0 < d) by lra.
  destruct (recovered_scale w s d Nw Hdpos) as (c & Hc & Hwc & _ & Hsg).
  specialize (Hsg Hw).
  destruct (target_dimension w c) as (d' & Hd' & Hm' & _ & Hd1').
  assert (Hdpos' : 0 < d') by lra.
  destruct (recovered_scale w c d' Nw Hdpos') as (c' & Hc' & Hwc' & _ & _).
  assert (Ed : d' == d).
  { rewrite Hm', Hz.
    apply (target_of_whole_extent (w * c) z (Qsgn s)).
    - rewrite Hz in Hd1. change 1 with (inject_Z 1) in Hd1.
      now rewrite <- Zle_Qle in Hd1.
    - now apply Qsgn_square.
    - now rewrite Hwc, Hz. }
  exists d, c, d', c'. repeat split; try assumption.
  rewrite Hsg, Ed in Hwc'.
  assert (Ew : w * c' == w * c) by (rewrite Hwc', Hwc; reflexivity).
  apply (Qmult_inj_l c' c w Nw). exact Ew.
Qed.

Variable t : CanvasTransformer.
Variables w h sx sy px py : Q.

Hypothesis Hwidth : proxy_width (proxyRect (konva t)) = Fin w.
Hypothesis Hheight : proxy_height (proxyRect (konva t)) = Fin h.
Hypothesis HscaleX : proxy_scaleX (proxyRect (konva t)) = Fin sx.
Hypothesis HscaleY : proxy_scaleY (proxyRect (konva t)) = Fin sy.
Hypothesis Hx : proxy_x (proxyRect (konva t)) = Fin px.
Hypothesis Hy : proxy_y (proxyRect (konva t)) = Fin py.
Hypothesis Hw : 0 < w.
Hypothesis Hh : 0 < h.
Hypothesis Hsx : ~ sx == 0.
Hypothesis Hsy : ~ sy == 0.

(** X9: the snap at the end of a transform is stable.  For a proxy rectangle
    of positive width and height and nonzero scales, handling [transformend]
    again on the result leaves the position and the target dimensions as
    they are and commits the same scales. *)
Theorem transformend_twice :
  let r1 := proxyRect (konva (on_transformend t)) in
  let r2 := proxyRect (konva (on_transformend (on_transformend t))) in
  proxy_x r2 = proxy_x r1 /\ proxy_y r2 = proxy_y r1
  /\ same (targetWidth r1) (targetWidth (proxyRect (konva t)))
  /\ same (targetHeight r1) (targetHeight (proxyRect (konva t)))
  /\ same (proxy_scaleX r2) (proxy_scaleX r1)
  /\ same (proxy_scaleY r2) (proxy_scaleY r1).
Proof.
  destruct (snap_axis_stable w sx Hw Hsx) as (dx & cx & dx' & cx' & A1 & A2 & A3 & A4 & A5 & A6).
  destruct (snap_axis_stable h sy Hh Hsy) as (dy & cy & dy' & cy' & B1 & B2 & B3 & B4 & B5 & B6).
  assert (Tw : targetWidth (proxyRect (konva t)) = Fin dx).
  { unfold targetWidth. now rewrite Hwidth, HscaleX. }
  assert (Th : targetHeight (proxyRect (konva t)) = Fin dy).
  { unfold targetHeight. now rewrite Hheight, HscaleY. }
  assert (Sx : snappedScaleX (proxyRect (konva t)) = Fin cx).
  { unfold snappedScaleX. now rewrite Tw, Hwidth, HscaleX. }
  assert (Sy : snappedScaleY (proxyRect (konva t)) = Fin cy).
  { unfold snappedScaleY. now rewrite Th, Hheight, HscaleY. }
  assert (R1 : proxyRect (konva (on_transformend t))
               = proxy_setAttrs (Math_round (Fin px)) (Math_round (Fin py)) (Fin cx) (Fin cy)
                   (proxyRect (konva t))).
  { unfold on_transformend. cbn -[Math_round snappedScaleX snappedScaleY].
    now rewrite Sx, Sy, Hx, Hy. }
  assert (Tw1 : targetWidth (proxyRect (konva (on_transformend t))) = Fin dx').
  { rewrite R1. unfold targetWidth, proxy_setAttrs.
    cbn [proxy_width proxy_scaleX]. now rewrite Hwidth. }
  assert (Th1 : targetHeight (proxyRect (konva (on_transformend t))) = Fin dy').
  { rewrite R1. unfold targetHeight, proxy_setAttrs.
    cbn [proxy_height proxy_scaleY]. now rewrite Hheight. }
  assert (Sx1 : snappedScaleX (proxyRect (konva (on_transformend t))) = Fin cx').
  { unfold snappedScaleX. rewrite Tw1. rewrite R1. unfold proxy_setAttrs.
    cbn [proxy_width proxy_scaleX]. now rewrite Hwidth. }
  assert (Sy1 : snappedScaleY (proxyRect (konva (on_transformend t))) = Fin cy').
  { unfold snappedScaleY. rewrite Th1. rewrite R1. unfold proxy_setAttrs.
    cbn [proxy_height proxy_scaleY]. now rewrite Hheight. }
  cbv zeta.
  assert (R2 : proxyRect (konva (on_transformend (on_transformend t)))
               = proxy_setAttrs
                   (Math_round (proxy_x (proxyRect (konva (on_transformend t)))))
                   (Math_round (proxy_y (proxyRect (konva (on_transformend t)))))
                   (Fin cx') (Fin cy')
                   (proxyRect (konva (on_transformend t)))).
  { rewrite <- Sx1, <- Sy1. reflexivity. }
  rewrite R2, Tw1, Th1, Tw. rewrite Th. rewrite R1.
  unfold proxy_setAttrs. cbn [proxy_x proxy_y proxy_scaleX proxy_scaleY].
  rewrite !Math_round_idempotent. unfold same.
  repeat split; assumption.
Qed.

End SnapStable.

Lemma transformend_twice_witness :
  let t := transformer_with
             (mkProxyRect (Fin (7 # 2)) (Fin (- 5 # 2)) (Fin 100) (Fin 50)
                (Fin (1236 # 1000)) (Fin (- 1 # 3)) (Fin 0) true true) in
  let r1 := proxyRect (konva (on_transformend t)) in
  let r2 := proxyRect (konva (on_transformend (on_transformend t))) in
  (0 < 100 /\ 0 < 50 /\ ~ 1236 # 1000 == 0 /\ ~ - 1 # 3 == 0)
  /\ proxy_x r2 = proxy_x r1 /\ proxy_y r2 = proxy_y r1
  /\ same (targetWidth r1) (targetWidth (proxyRect (konva t)))
  /\ same (targetHeight r1) (targetHeight (proxyRect (konva t)))
  /\ same (proxy_scaleX r2) (proxy_scaleX r1)
  /\ same (proxy_scaleY r2) (proxy_scaleY r1).
Proof.
  intros t r1 r2.
  assert (H1 : 0 < 100) by reflexivity.
  assert (H2 : 0 < 50) by reflexivity.
  assert (H3 : ~ 1236 # 1000 == 0) by (intros H; vm_compute in H; discriminate).
  assert (H4 : ~ - 1 # 3 == 0) by (intros H; vm_compute in H; discriminate).
  split; [repeat split; assumption | ].
  exact (transformend_twice t 100 50 (1236 # 1000) (- 1 # 3) (7 # 2) (- 5 # 2)
           eq_refl eq_refl eq_refl eq_refl eq_refl eq_refl H1 H2 H3 H4).
Defined.

(* ================================================================== *)
(** ** Pixel snapping at the end of a transform, whatever the rounding *)
(* ================================================================== *)

Section TransformEndSnap.

(** The target dimension is a whole number of at least 1, within one pixel
    of the scaled size. *)
Lemma target_near_extent (w s : Q) :
  exists d : Q,
    Math_max (Math_abs (Math_round (Fin w * Fin s)%js)) (Fin 1) = Fin d
    /\ (exists z : Z, d == inject_Z z)
    /\ 1 <= d
    /\ Qabs (d - Qabs (w * s)) <= 1.
Proof.
  destruct (target_dimension w s) as (d & Hd & Hm & Hz & H1).
  exists d. split; [exact Hd | ]. split; [exact Hz | ]. split; [exact H1 | ].
  pose proof (Math_round_nearest (w * s)) as Hn.
  unfold nearest_integer, Math_round in Hn. destruct Hn as [_ Hn].
  set (F := inject_Z (Qfloor (w * s + (1 # 2)))) in *.
  pose proof (Qabs_triangle_reverse F (w * s)) as T1.
  pose proof (Qabs_triangle_reverse (w * s) F) as T2.
  rewrite (Qabs_Qminus (w * s) F) in T2.
  pose proof (Qabs_nonneg F) as P1. pose proof (Qabs_nonneg (w * s)) as P2.
  apply Qabs_Qle_condition.
  destruct (Q.max_spec (Qabs F) 1) as [[Hlt Hmax] | [Hge Hmax]];
    rewrite Hm, Hmax;
    generalize dependent (Qabs (F - w * s));
    generalize dependent (Qabs (w * s));
    generalize dependent (Qabs F);
    intros; split; lra.
Qed.

(** Scaling the unscaled size by the committed scale and rounding gives the
    target dimension back, with the sign of the accumulated scale. *)
Lemma snapped_scale_rounds_back (w s d c : Q) (z : Z) :
  ~ s == 0 ->
  d == inject_Z z ->
  w * c == Qsgn s * d ->
  same (Math_round (Fin w * Fin c)%js) (Fin (Qsgn s * d)).
Proof.
  intros Hs Hz Hwc. rewrite mul_fin. unfold Math_round, same.
  destruct (Qsgn_cases s) as [[_ E] | [[_ E] | [H0 _]]]; [ | | contradiction];
    rewrite E in *.
  - assert (Ew : w * c + (1 # 2) == inject_Z z + (1 # 2)) by (rewrite Hwc, Hz; ring).
    rewrite Ew, Qfloor_Z_half, Hz. ring.
  - assert (Ew : w * c + (1 # 2) == inject_Z (- z) + (1 # 2))
      by (rewrite Hwc, Hz, inject_Z_opp; ring).
    rewrite Ew, Qfloor_Z_half, Hz, inject_Z_opp. ring.
Qed.

Variable t : CanvasTransformer.
Variables w h sx sy px py : Q.

Let r := proxyRect (konva t).
Let r' := proxyRect (konva (on_transformend t)).
Let g' := objectGroup (parent (on_transformend t)).

Hypothesis Hwidth : proxy_width r = Fin w.
Hypothesis Hheight : proxy_height r = Fin h.
Hypothesis HscaleX : proxy_scaleX r = Fin sx.
Hypothesis HscaleY : proxy_scaleY r = Fin sy.
Hypothesis Hx : proxy_x r = Fin px.
Hypothesis Hy : proxy_y r = Fin py.
Hypothesis Hw : ~ w == 0.
Hypothesis Hh : ~ h == 0.
Hypothesis Hsx : ~ sx == 0.
Hypothesis Hsy : ~ sy == 0.


End TransformEndSnap.



(* ================================================================== *)
(** ** Starting and stopping a transform *)
(* ================================================================== *)

Section TransformLifecycle.

(** What [syncInteractionState] does, in one equation. *)
Lemma syncInteractionState_eq (activeTool : string) (isSelected : bool)
    (t : CanvasTransformer) :
  let mode := interaction_mode_of (hasObjects (parent t)) isSelected activeTool
                (isTransforming t) in
  syncInteractionState activeTool isSelected t
  = setInteractionMode mode
      (layer_set_listening (match mode with off => false | _ => true end) t).
Proof.
  unfold syncInteractionState, interaction_mode_of.
  destruct (hasObjects (parent t)), isSelected, (isTransforming t),
    (activeTool =? "move")%string, (activeTool =? "view")%string; reflexivity.
Qed.

Lemma syncInteractionState_keeps (activeTool : string) (isSelected : bool)
    (t : CanvasTransformer) :
  isTransforming (syncInteractionState activeTool isSelected t) = isTransforming t
  /\ hasObjects (parent (syncInteractionState activeTool isSelected t))
     = hasObjects (parent t).
Proof.
  rewrite syncInteractionState_eq. cbv zeta.
  destruct (interaction_mode_of _ _ _ _); split; reflexivity.
Qed.

(** X10: [startTransform] marks the transformer as transforming and puts it
    in the mode [all] whatever the active tool is; only the parent layer's
    listening depends on the tool (off for the view tool).  For a selected
    entity with content, a later [syncInteractionState] under the view tool
    suspends the interaction (mode [off]) while the transform stays in
    progress, and one under any other tool brings the mode [all] back. *)
Theorem startTransform_then_sync (tool tool' : string) (t : CanvasTransformer) :
  hasObjects (parent t) = true ->
  tool' <> "view"%string ->
  let t1 := startTransform tool t in
  let t2 := syncInteractionState "view" true t1 in
  let t3 := syncInteractionState tool' true t2 in
  (isTransforming t1 = true /\ interactionMode t1 = all
   /\ isDragEnabled t1 = true /\ isTransformEnabled t1 = true
   /\ layer_listening (parent t1) = negb (tool =? "view")%string)
  /\ (isTransforming t2 = true /\ interactionMode t2 = off
      /\ isDragEnabled t2 = false /\ isTransformEnabled t2 = false
      /\ layer_listening (parent t2) = false)
  /\ (isTransforming t3 = true /\ interactionMode t3 = all
      /\ isDragEnabled t3 = true /\ isTransformEnabled t3 = true
      /\ layer_listening (parent t3) = true).
Proof.
  intros Hc Hv. cbv zeta.
  apply String.eqb_neq in Hv.
  split; [repeat split | ].
  assert (E2 : syncInteractionState "view" true (startTransform tool t)
               = setInteractionMode off
                   (layer_set_listening false (startTransform tool t))).
  { rewrite syncInteractionState_eq. cbv zeta.
    replace (hasObjects (parent (startTransform tool t))) with true
      by (symmetry; exact Hc).
    reflexivity. }
  rewrite E2. split; [repeat split | ].
  rewrite syncInteractionState_eq. cbv zeta.
  replace (hasObjects (parent (setInteractionMode off
             (layer_set_listening false (startTransform tool t))))) with true
    by (symmetry; exact Hc).
  replace (isTransforming (setInteractionMode off
             (layer_set_listening false (startTransform tool t)))) with true
    by reflexivity.
  unfold interaction_mode_of. rewrite Hv.
  destruct (tool' =? "move")%string; repeat split.
Qed.

Variable parentReset : CanvasTransformer -> CanvasTransformer.
Hypothesis parentReset_keeps_flag :
  forall u, isTransforming (parentReset u) = isTransforming u.

(** X11: [stopTransform] always ends the transform: provided the calls on
    the parent do not touch the transformer's [isTransforming] flag, the
    transformer is no longer transforming afterwards, resizing and rotating
    are disabled with no node attached, and the mode is never [all]; it is
    [drag] only for a selected entity under the move tool. *)
Theorem stopTransform_leaves_transform (tool : string) (isSelected : bool)
    (t : CanvasTransformer) :
  let t' := stopTransform parentReset tool isSelected t in
  isTransforming t' = false
  /\ interactionMode t' <> all
  /\ isTransformEnabled t' = false
  /\ transformer_nodes (transformer (konva t')) = []
  /\ (interactionMode t' = drag -> isSelected = true /\ tool = "move"%string).
Proof.
  cbv zeta. unfold stopTransform.
  set (u := parentReset (setInteractionMode off (set_isTransforming false t))).
  assert (Hu : isTransforming u = false).
  { subst u. rewrite parentReset_keeps_flag.
    rewrite setInteractionMode_keeps_transforming. reflexivity. }
  rewrite syncInteractionState_eq. cbv zeta. rewrite Hu.
  unfold interaction_mode_of.
  destruct (hasObjects (parent u)), isSelected, (tool =? "move")%string eqn:Em;
    cbn; repeat split; try discriminate; try (intros; discriminate);
    try exact Hu; try (apply String.eqb_eq; exact Em).
Qed.

End TransformLifecycle.

Lemma startTransform_then_sync_witness :
  let t := transformer_with
             (mkProxyRect (Fin 0) (Fin 0) (Fin 100) (Fin 50) (Fin 1) (Fin 1)
                (Fin 0) false false) in
  (hasObjects (parent t) = true /\ "move"%string <> "view"%string)
  /\ interactionMode (startTransform "view" t) = all
  /\ interactionMode (syncInteractionState "view" true (startTransform "view" t)) = off
  /\ interactionMode
       (syncInteractionState "move" true
          (syncInteractionState "view" true (startTransform "view" t))) = all.
Proof.
  intros t.
  assert (Hc : hasObjects (parent t) = true) by reflexivity.
  assert (Hv : "move"%string <> "view"%string) by discriminate.
  split; [split; assumption | ].
  destruct (startTransform_then_sync "view" "move" t Hc Hv)
    as ((_ & H1 & _) & (_ & H2 & _) & (_ & H3 & _)).
  split; [exact H1 | split; [exact H2 | exact H3]].
Defined.

Lemma stopTransform_leaves_transform_witness :
  let t := transformer_with
             (mkProxyRect (Fin 0) (Fin 0) (Fin 100) (Fin 50) (Fin 1) (Fin 1)
                (Fin 0) true true) in
  let t' := stopTransform (fun u => u) "move" true t in
  (forall u : CanvasTransformer, isTransforming u = isTransforming u)
  /\ isTransforming t' = false /\ interactionMode t' <> all.
Proof.
  intros t t'.
  split; [reflexivity | ].
  destruct (stopTransform_leaves_transform (fun u => u) (fun u => eq_refl) "move" true t)
    as (H1 & H2 & _).
  split; [exact H1 | exact H2].
Defined.

(* ================================================================== *)
(** ** The stage: the fitted view and the published attributes *)
(* ================================================================== *)

Section FitCenter.

Variable m : CanvasStageModule.
Variables cw ch rx ry rw rh : Q.
Hypothesis Hcw : stage_width (stage m) = Fin cw.
Hypothesis Hch : stage_height (stage m) = Fin ch.
Hypothesis Hrw : 0 < rw.
Hypothesis Hrh : 0 < rh.
Hypothesis Hcw40 : 40 < cw.
Hypothesis Hch40 : 40 < ch.


End FitCenter.

Section PublishedAttributes.

(** X16: the published attributes follow the stage.  [fitStageToContainer]
    takes the size of the container, keeps position and scale, and publishes
    exactly the attributes of the stage; [fitRect] keeps the published
    attributes equal to the stage's when they were; so after
    [fitStageToContainer] and a fit, as in [initialize], they are equal. *)
Theorem published_attrs_follow_stage (offsetWidth offsetHeight : number) (rect : Rect)
    (m : CanvasStageModule) :
  let m1 := fitStageToContainer offsetWidth offsetHeight m in
  (stage_width (stage m1) = offsetWidth /\ stage_height (stage m1) = offsetHeight
   /\ stage_x (stage m1) = stage_x (stage m) /\ stage_y (stage m1) = stage_y (stage m)
   /\ stage_scaleX (stage m1) = stage_scaleX (stage m)
   /\ stage_scaleY (stage m1) = stage_scaleY (stage m))
  /\ attrs_mirror_stage m1
  /\ (attrs_mirror_stage m -> attrs_mirror_stage (fitRect rect m))
  /\ attrs_mirror_stage (fitRect rect m1).
Proof.
  cbv zeta. split; [repeat split | ]. split; [repeat split | ].
  assert (P : forall n, attrs_mirror_stage n -> attrs_mirror_stage (fitRect rect n)).
  { intros n (_ & _ & Hw & Hh & _). unfold attrs_mirror_stage, fitRect.
    cbn [stage stageAttrs attrs_x attrs_y attrs_width attrs_height attrs_scale
         stage_setAttrs stage_x stage_y stage_width stage_height stage_scaleX].
    repeat split; assumption. }
  split; [apply P | apply P; repeat split].
Qed.

End PublishedAttributes.

Section VisibleRectProperties.

Variable getRectUnion : list Rect -> Rect.

(** X17: [fitLayersToStage] fits the union of the rects of the enabled
    adapters, and adapters that are not enabled play no part; when that
    union has a width or a height of zero it fits the generation bounding
    box instead, exactly as [fitBboxToStage] does. *)
Theorem fitLayersToStage_falls_back (mgr : ManagerView) (m : CanvasStageModule) (w h : Q) :
  let rects :=
    map adapter_relativeRect
      (filter adapter_isEnabled
         (inpaintMaskAdapters mgr ++ rasterLayerAdapters mgr
          ++ controlLayerAdapters mgr ++ regionalGuidanceAdapters mgr)) in
  rect_width (getRectUnion rects) = Fin w ->
  rect_height (getRectUnion rects) = Fin h ->
  (w == 0 \/ h == 0 ->
   fitLayersToStage getRectUnion mgr m = fitBboxToStage mgr m)
  /\ (~ w == 0 -> ~ h == 0 ->
      fitLayersToStage getRectUnion mgr m = fitRect (getRectUnion rects) m).
Proof.
  intros rects Hw Hh.
  assert (Er : (enabled_rects (inpaintMaskAdapters mgr)
                ++ enabled_rects (rasterLayerAdapters mgr)
                ++ enabled_rects (controlLayerAdapters mgr)
                ++ enabled_rects (regionalGuidanceAdapters mgr)) = rects).
  { subst rects. unfold enabled_rects. now rewrite !filter_app, !map_app. }
  unfold fitLayersToStage, fitBboxToStage, getVisibleRect. rewrite Er, Hw, Hh.
  unfold strict_eq, compare.
  split.
  - intros [H0 | H0]; apply Qeq_alt in H0; rewrite H0; [reflexivity | ].
    now rewrite orb_true_r.
  - intros Nw Nh.
    destruct (w ?= 0) eqn:Ew; [apply Qeq_alt in Ew; contradiction | | ];
      (destruct (h ?= 0) eqn:Eh; [apply Qeq_alt in Eh; contradiction | | ]);
      reflexivity.
Qed.

End VisibleRectProperties.


Lemma fitLayersToStage_falls_back_witness :
  let zero := mkRect (Fin 0) (Fin 0) (Fin 0) (Fin 0) in
  let mgr := mkManagerView [] [mkAdapter false (mkRect (Fin 0) (Fin 0) (Fin 5) (Fin 5))]
               [] [] (mkRect (Fin 0) (Fin 0) (Fin 512) (Fin 512)) in
  let m := mkCanvasStageModule
             (mkKonvaStage (Fin 0) (Fin 0) (Fin 800) (Fin 600) (Fin 1) (Fin 1))
             (mkStageAttrs (Fin 0) (Fin 0) (Fin 800) (Fin 600) (Fin 1)) in
  0 == 0
  /\ fitLayersToStage (fun _ => zero) mgr m = fitBboxToStage mgr m.
Proof.
  intros zero mgr m.
  assert (H0 : 0 == 0) by reflexivity.
  split; [exact H0 | ].
  exact (proj1 (fitLayersToStage_falls_back (fun _ => zero) mgr m 0 0 eq_refl eq_refl)
           (or_introl H0)).
Defined.

(* ================================================================== *)
(** ** IDs *)
(* ================================================================== *)

Section IdProperties.

Local Open Scope string_scope.

Lemma append_inj_l (p a b : string) : p ++ a = p ++ b -> a = b.
Proof.
  induction p as [ | c p IH]; simpl; intros H; [exact H | ].
  injection H as H. now apply IH.
Qed.

(** X18: the ids of layers, regions, control adapters and IP adapters
    identify their entity and their kind: each getter is injective, and ids
    of two different kinds are never equal, whatever the entity ids. *)
Theorem entity_ids_identify (a b : string) :
  (getRGId a = getRGId b -> a = b)
  /\ (getLayerId a = getLayerId b -> a = b)
  /\ (getCAId a = getCAId b -> a = b)
  /\ (getIPAId a = getIPAId b -> a = b)
  /\ getRGId a <> getLayerId b /\ getRGId a <> getCAId b /\ getRGId a <> getIPAId b
  /\ getLayerId a <> getCAId b /\ getLayerId a <> getIPAId b
  /\ getCAId a <> getIPAId b.
Proof.
  unfold getRGId, getLayerId, getCAId, getIPAId.
  repeat split; try apply append_inj_l; simpl; intros H; discriminate.
Qed.

(** X19: within one entity, the ids of its objects identify the object and
    its kind: each getter is injective in the object id, and the ids of a
    brush line, an eraser line, a rect, an image, an object group and the
    bounding box of the same entity are pairwise different. *)
Theorem object_ids_identify (e a b : string) :
  ((getBrushLineId e a = getBrushLineId e b -> a = b)
   /\ (getEraserLineId e a = getEraserLineId e b -> a = b)
   /\ (getRectShapeId e a = getRectShapeId e b -> a = b)
   /\ (getImageObjectId e a = getImageObjectId e b -> a = b)
   /\ (getObjectGroupId e a = getObjectGroupId e b -> a = b))
  /\ (getBrushLineId e a <> getEraserLineId e b
      /\ getBrushLineId e a <> getRectShapeId e b
      /\ getBrushLineId e a <> getImageObjectId e b
      /\ getBrushLineId e a <> getObjectGroupId e b
      /\ getBrushLineId e a <> getLayerBboxId e)
  /\ (getEraserLineId e a <> getRectShapeId e b
      /\ getEraserLineId e a <> getImageObjectId e b
      /\ getEraserLineId e a <> getObjectGroupId e b
      /\ getEraserLineId e a <> getLayerBboxId e)
  /\ (getRectShapeId e a <> getImageObjectId e b
      /\ getRectShapeId e a <> getObjectGroupId e b
      /\ getRectShapeId e a <> getLayerBboxId e)
  /\ (getImageObjectId e a <> getObjectGroupId e b
      /\ getImageObjectId e a <> getLayerBboxId e)
  /\ getObjectGroupId e a <> getLayerBboxId e.
Proof.
  unfold getBrushLineId, getEraserLineId, getRectShapeId, getImageObjectId,
    getObjectGroupId, getLayerBboxId.
  repeat split; intros H; apply append_inj_l in H;
    try (now apply (append_inj_l _ _ _ H)); simpl in H; discriminate.
Qed.

(** Across entities the object ids are not unique when an entity id may
    contain the separator. *)
Lemma object_ids_collide :
  getBrushLineId "a" "b.brush_line_c" = getBrushLineId "a.brush_line_b" "c".
Proof. reflexivity. Qed.

End IdProperties.

Lemma entity_ids_identify_witness :
  getRGId "42" = getRGId "42" /\ getRGId "42" <> getLayerId "42".
Proof.
  destruct (entity_ids_identify "42" "42") as (_ & _ & _ & _ & H & _).
  split; [reflexivity | exact H].
Defined.

Lemma object_ids_identify_witness :
  getBrushLineId "layer_1" "7" = getBrushLineId "layer_1" "7"
  /\ getBrushLineId "layer_1" "7" <> getLayerBboxId "layer_1".
Proof.
  destruct (object_ids_identify "layer_1" "7" "7") as (_ & (_ & _ & _ & _ & H) & _).
  split; [reflexivity | exact H].
Defined.

(* ================================================================== *)
(** ** The state facade: routing and selection *)
(* ================================================================== *)

Section RoutingProperties.

Context {ScaleChangedArg RootState : Type}.
Variable reducer : RootState -> Action ScaleChangedArg -> RootState.

(** X20: the position-changed intent is routed by entity type: for
    ['layer'], ['regional_guidance'], ['inpaint_mask'] and
    ['control_adapter'] exactly the corresponding translated action is
    dispatched; for every other entity type (such as ['ip_adapter']) nothing
    is dispatched and the store is unchanged; in no case are earlier actions
    dropped or more than one action added. *)
Theorem onPosChanged_routes (arg : PositionChangedArg) (entityType : string)
    (s : Store ScaleChangedArg RootState) :
  onPosChanged reducer arg "layer" s = dispatch reducer (layerTranslated arg) s
  /\ onPosChanged reducer arg "regional_guidance" s = dispatch reducer (rgTranslated arg) s
  /\ onPosChanged reducer arg "inpaint_mask" s = dispatch reducer (imTranslated arg) s
  /\ onPosChanged reducer arg "control_adapter" s = dispatch reducer (caTranslated arg) s
  /\ (entityType <> "layer"%string -> entityType <> "regional_guidance"%string ->
      entityType <> "inpaint_mask"%string -> entityType <> "control_adapter"%string ->
      onPosChanged reducer arg entityType s = s)
  /\ exists added : list (Action ScaleChangedArg),
       dispatched (onPosChanged reducer arg entityType s) = dispatched s ++ added
       /\ (length added <= 1)%nat.
Proof.
  do 4 (split; [reflexivity | ]). split.
  - intros H1 H2 H3 H4. unfold onPosChanged.
    apply String.eqb_neq in H1, H2, H3, H4. now rewrite H1, H2, H3, H4.
  - unfold onPosChanged.
    destruct (entityType =? "layer")%string;
      [eexists; split; [reflexivity | simpl; lia] | ].
    destruct (entityType =? "regional_guidance")%string;
      [eexists; split; [reflexivity | simpl; lia] | ].
    destruct (entityType =? "inpaint_mask")%string;
      [eexists; split; [reflexivity | simpl; lia] | ].
    destruct (entityType =? "control_adapter")%string;
      [eexists; split; [reflexivity | simpl; lia] | ].
    exists []. split; [now rewrite app_nil_r | simpl; lia].
Qed.

End RoutingProperties.

Lemma onPosChanged_routes_witness :
  let arg := {| arg_id := "ip_1"; position := {| x := Fin 1; y := Fin 2 |} |} in
  let s : Store unit nat := mkStore 0%nat [] in
  "ip_adapter"%string <> "layer"%string
  /\ onPosChanged (fun n _ => S n) arg "ip_adapter" s = s.
Proof.
  intros arg s. split; [discriminate | ].
  apply (proj1 (proj2 (proj2 (proj2 (proj2
           (onPosChanged_routes (fun n _ => S n) arg "ip_adapter" s))))));
    discriminate.
Defined.

Section SelectionProperties.

Lemma find_entity_id (i : string) (entities : list CanvasEntity) (e : CanvasEntity) :
  find_entity i entities = Some e -> entity_id e = i /\ In e entities.
Proof.
  unfold find_entity. intros H. apply find_some in H. destruct H as [Hin Hid].
  split; [now apply String.eqb_eq | exact Hin].
Qed.

Lemma find_entity_present (i : string) (entities : list CanvasEntity) :
  (exists e, In e entities /\ entity_id e = i) ->
  exists e, find_entity i entities = Some e.
Proof.
  intros (e & Hin & Hid). unfold find_entity.
  destruct (find (fun j => (entity_id j =? i)%string) entities) as [f | ] eqn:E;
    [now exists f | ].
  exfalso. pose proof (find_none _ _ E e Hin) as Hn. simpl in Hn.
  apply String.eqb_neq in Hn. contradiction.
Qed.

Lemma find_entity_absent (i : string) (entities : list CanvasEntity) :
  (forall e, In e entities -> entity_id e <> i) ->
  find_entity i entities = None.
Proof.
  intros H. unfold find_entity.
  destruct (find (fun j => (entity_id j =? i)%string) entities) as [f | ] eqn:E;
    [ | reflexivity].
  apply find_some in E. destruct E as [Hin Hid]. apply String.eqb_eq in Hid.
  exfalso. exact (H f Hin Hid).
Qed.

(** A selected id is the id of the selected entity. *)
Lemma getIsSelected_entity (state : CanvasV2State) (a : string) :
  getIsSelected state a = true ->
  exists e, getSelectedEntity state = Some e /\ entity_id e = a.
Proof.
  unfold getIsSelected. destruct (getSelectedEntity state) as [e | ]; [ | discriminate].
  intros Ha. apply String.eqb_eq in Ha. now exists e.
Qed.

(** X21: at most one entity id is selected: [getIsSelected] holds of at most
    one id in any state. *)
Theorem getIsSelected_unique (state : CanvasV2State) (a b : string) :
  getIsSelected state a = true ->
  getIsSelected state b = true ->
  a = b.
Proof.
  intros Ha Hb.
  destruct (getIsSelected_entity state a Ha) as (e & He & <-).
  destruct (getIsSelected_entity state b Hb) as (f & Hf & <-).
  congruence.
Qed.

(** X22: for a selection of type ['layer'], ['control_adapter'],
    ['ip_adapter'] or ['regional_guidance'], [getIsSelected] holds of an id
    exactly when it is the selected id and the collection of that type has an
    entity with that id. *)
Theorem getIsSelected_collection (state : CanvasV2State) (i ty e : string)
    (entities : list CanvasEntity) :
  selectedEntityIdentifier state = Some (mkEntityIdentifier i ty) ->
  (ty = "layer"%string /\ entities = layers_entities state)
  \/ (ty = "control_adapter"%string /\ entities = controlAdapters_entities state)
  \/ (ty = "ip_adapter"%string /\ entities = ipAdapters_entities state)
  \/ (ty = "regional_guidance"%string /\ entities = regions_entities state) ->
  getIsSelected state e = true
  <-> e = i /\ exists entity, In entity entities /\ entity_id entity = i.
Proof.
  intros Hsel Hty.
  assert (Hg : getSelectedEntity state = find_entity i entities).
  { unfold getSelectedEntity. rewrite Hsel. cbn [identifier_type identifier_id].
    destruct Hty as [[-> ->] | [[-> ->] | [[-> ->] | [-> ->]]]]; reflexivity. }
  unfold getIsSelected. rewrite Hg. split.
  - destruct (find_entity i entities) as [f | ] eqn:E; [ | discriminate].
    intros He. apply String.eqb_eq in He.
    destruct (find_entity_id _ _ _ E) as [Hid Hin].
    split; [congruence | now exists f].
  - intros [-> Hex]. destruct (find_entity_present _ _ Hex) as [f Hf].
    rewrite Hf. apply String.eqb_eq. now destruct (find_entity_id _ _ _ Hf).
Qed.

(** X23: a selection that does not resolve counts as no selection.  When
    there is no identifier, or its type is none of the five known ones, or
    its collection has no entity with its id, [getSelectedEntity] returns
    nothing, [getIsSelected] is false of every id and [getCurrentFill] is the
    fill of the tool. *)
Theorem dangling_selection (state : CanvasV2State) (e : string) :
  selectedEntityIdentifier state = None
  \/ (exists i ty,
        selectedEntityIdentifier state = Some (mkEntityIdentifier i ty)
        /\ ((ty <> "layer"%string /\ ty <> "control_adapter"%string
             /\ ty <> "ip_adapter"%string /\ ty <> "regional_guidance"%string
             /\ ty <> "inpaint_mask"%string)
            \/ (ty = "layer"%string
                /\ forall f, In f (layers_entities state) -> entity_id f <> i)
            \/ (ty = "control_adapter"%string
                /\ forall f, In f (controlAdapters_entities state) -> entity_id f <> i)
            \/ (ty = "ip_adapter"%string
                /\ forall f, In f (ipAdapters_entities state) -> entity_id f <> i)
            \/ (ty = "regional_guidance"%string
                /\ forall f, In f (regions_entities state) -> entity_id f <> i))) ->
  getSelectedEntity state = None
  /\ getIsSelected state e = false
  /\ getCurrentFill state = tool_fill state.
Proof.
  intros H.
  assert (Hg : getSelectedEntity state = None).
  { unfold getSelectedEntity.
    destruct H as [-> | (i & ty & -> & H)]; [reflexivity | ].
    cbn [identifier_type identifier_id].
    destruct H as [(H1 & H2 & H3 & H4 & H5) | [[-> H] | [[-> H] | [[-> H] | [-> H]]]]].
    - apply String.eqb_neq in H1, H2, H3, H4, H5. now rewrite H1, H2, H3, H4, H5.
    - now apply find_entity_absent.
    - now apply find_entity_absent.
    - now apply find_entity_absent.
    - now apply find_entity_absent. }
  unfold getIsSelected, getCurrentFill. rewrite Hg. repeat split.
Qed.

(** The inpaint mask is selected through the type alone: the id of the
    identifier is not looked at. *)
Lemma getIsSelected_inpaint_mask (state : CanvasV2State) (i e : string) :
  selectedEntityIdentifier state = Some (mkEntityIdentifier i "inpaint_mask") ->
  getIsSelected state e = (entity_id (inpaintMask state) =? e)%string.
Proof. intros H. unfold getIsSelected, getSelectedEntity. now rewrite H. Qed.

(** X24: no two entities are interactive at once: after
    [syncInteractionState], with selection read through [getIsSelected], of
    two transformers whose parents have different ids at least one is in the
    mode [off]. *)
Theorem one_interactive_transformer (state : CanvasV2State)
    (t1 t2 : CanvasTransformer) :
  id (parent t1) <> id (parent t2) ->
  let sync t :=
    syncInteractionState (tool_selected state)
      (getIsSelected state (id (parent t))) t in
  interactionMode (sync t1) = off \/ interactionMode (sync t2) = off.
Proof.
  intros Hid sync. subst sync. cbv beta.
  destruct (getIsSelected state (id (parent t1))) eqn:S1.
  - destruct (getIsSelected state (id (parent t2))) eqn:S2.
    + exfalso. apply Hid.
      destruct (getIsSelected_entity state _ S1) as (e & He & <-).
      destruct (getIsSelected_entity state _ S2) as (f & Hf & <-).
      congruence.
    + right. rewrite syncInteractionState_eq. cbv zeta.
      rewrite setInteractionMode_mode. unfold interaction_mode_of.
      now destruct (hasObjects (parent t2)).
  - left. rewrite syncInteractionState_eq. cbv zeta.
    rewrite setInteractionMode_mode. unfold interaction_mode_of.
    now destruct (hasObjects (parent t1)).
Qed.

(** X25: the current fill of a mask takes its opacity from the settings: when
    the selected entity is a regional-guidance region the fill is the
    region's own color, and when it is the inpaint mask the fill is the
    color of the inpaint mask, in both cases with the mask opacity as alpha;
    for an entity of any other type it is the fill of the tool. *)
Theorem getCurrentFill_of_selection (state : CanvasV2State) (sel : CanvasEntity) :
  getSelectedEntity state = Some sel ->
  (entity_type sel = "regional_guidance"%string ->
   getCurrentFill state = with_alpha (entity_fill sel) (settings_maskOpacity state))
  /\ (entity_type sel = "inpaint_mask"%string ->
      getCurrentFill state
      = with_alpha (entity_fill (inpaintMask state)) (settings_maskOpacity state))
  /\ (entity_type sel <> "regional_guidance"%string ->
      entity_type sel <> "inpaint_mask"%string ->
      getCurrentFill state = tool_fill state)
  /\ ((entity_type sel = "regional_guidance"%string
       \/ entity_type sel = "inpaint_mask"%string) ->
      rgba_a (getCurrentFill state) = settings_maskOpacity state).
Proof.
  intros Hs. unfold getCurrentFill. rewrite Hs. repeat split.
  - intros ->. reflexivity.
  - intros ->. reflexivity.
  - intros H1 H2. apply String.eqb_neq in H1, H2. now rewrite H1, H2.
  - intros [-> | ->]; reflexivity.
Qed.

End SelectionProperties.

Lemma getIsSelected_unique_witness :
  let state := sample_state (Some (mkEntityIdentifier "L1" "layer")) in
  getIsSelected state "L1" = true /\ "L1"%string = "L1"%string.
Proof.
  intros state. split; [reflexivity | ].
  exact (getIsSelected_unique state "L1" "L1" eq_refl eq_refl).
Defined.

Lemma getIsSelected_collection_witness :
  let state := sample_state (Some (mkEntityIdentifier "R1" "regional_guidance")) in
  selectedEntityIdentifier state = Some (mkEntityIdentifier "R1" "regional_guidance")
  /\ (getIsSelected state "R1" = true
      <-> "R1"%string = "R1"%string
          /\ exists entity, In entity (regions_entities state)
                            /\ entity_id entity = "R1"%string).
Proof.
  intros state. split; [reflexivity | ].
  apply (getIsSelected_collection state "R1" "regional_guidance" "R1"
           (regions_entities state) eq_refl).
  right; right; right. split; reflexivity.
Defined.

Lemma dangling_selection_witness :
  let state := sample_state (Some (mkEntityIdentifier "gone" "layer")) in
  (forall f, In f (layers_entities state) -> entity_id f <> "gone"%string)
  /\ getSelectedEntity state = None
  /\ getIsSelected state "L1" = false
  /\ getCurrentFill state = tool_fill state.
Proof.
  intros state.
  assert (H : forall f, In f (layers_entities state) -> entity_id f <> "gone"%string).
  { intros f [<- | []]. discriminate. }
  split; [exact H | ].
  apply (dangling_selection state "L1").
  right. exists "gone"%string, "layer"%string. split; [reflexivity | ].
  right; left. split; [reflexivity | exact H].
Defined.

Lemma one_interactive_transformer_witness :
  let state := sample_state (Some (mkEntityIdentifier "L1" "layer")) in
  let t1 := sample_transformer "L1" in
  let t2 := sample_transformer "L2" in
  id (parent t1) <> id (parent t2)
  /\ (interactionMode
        (syncInteractionState (tool_selected state)
           (getIsSelected state (id (parent t1))) t1) = off
      \/ interactionMode
           (syncInteractionState (tool_selected state)
              (getIsSelected state (id (parent t2))) t2) = off).
Proof.
  intros state t1 t2.
  assert (H : id (parent t1) <> id (parent t2)) by discriminate.
  split; [exact H | ].
  exact (one_interactive_transformer state t1 t2 H).
Defined.

Lemma getCurrentFill_of_selection_witness :
  let state := sample_state (Some (mkEntityIdentifier "R1" "regional_guidance")) in
  let region := mkCanvasEntity "R1" "regional_guidance" (mkRgbColor (Fin 255) (Fin 0) (Fin 0)) in
  getSelectedEntity state = Some region
  /\ getCurrentFill state = mkRgbaColor (Fin 255) (Fin 0) (Fin 0) (Fin (1 # 2)).
Proof.
  intros state region. split; [reflexivity | ].
  exact (proj1 (getCurrentFill_of_selection state region eq_refl) eq_refl).
Defined.

Lemma published_attrs_follow_stage_witness :
  let m := mkCanvasStageModule
             (mkKonvaStage (Fin 0) (Fin 0) (Fin 0) (Fin 0) (Fin 1) (Fin 1))
             (mkStageAttrs (Fin 5) (Fin 5) (Fin 1) (Fin 1) (Fin 3)) in
  let rect := mkRect (Fin 0) (Fin 0) (Fin 512) (Fin 512) in
  attrs_mirror_stage (fitStageToContainer (Fin 800) (Fin 600) m)
  /\ attrs_mirror_stage (fitRect rect (fitStageToContainer (Fin 800) (Fin 600) m)).
Proof.
  intros m rect.
  destruct (published_attrs_follow_stage (Fin 800) (Fin 600) rect m) as (_ & H1 & _ & H2).
  split; [exact H1 | exact H2].
Defined.
